(** * OpenRASP agent: the backend response envelope

    A shallow embedding of [agent/php5/agent/backend_response.cc] and of
    the part of rapidjson it calls (values, JSON Pointer resolution and
    erasure), followed by the properties of the envelope: the
    acceptance gate [verify], the typed fetchers, the plugin package
    builder and the hook whitelist builder. *)

From Stdlib Require Import ZArith Ascii String.
From stdpp Require Import base option list strings gmap.

Local Open Scope string_scope.
Local Open Scope list_scope.
Local Open Scope Z_scope.

Set Warnings "-register-all,-clear-no-such-hyp".

(** ** Calls that may not return

    rapidjson guards its accessors with [RAPIDJSON_ASSERT]; reading a
    value through the accessor of another type, or resolving an invalid
    pointer, has no defined result.  [Undefined] stands for every such
    run: no value comes back to the caller. *)

Inductive Outcome (A : Type) : Type :=
| Returns (a : A)
| Undefined.

Arguments Returns {A} a.
Arguments Undefined {A}.

#[global] Instance Outcome_ret : MRet Outcome := @Returns.
#[global] Instance Outcome_bind : MBind Outcome := λ A B f m,
  match m with
  | Returns a => f a
  | Undefined => Undefined
  end.

(** ** C strings

    A pointer to [const char] denotes the bytes before the first NUL.  A
    [std::string] built from one (by its converting constructor, by
    assignment or by [push_back] into a vector of strings) holds exactly
    those bytes. *)

Definition NUL : ascii := "000"%char.

Fixpoint c_str (s : string) : string :=
  match s with
  | EmptyString => EmptyString
  | String c rest => if Ascii.eqb c NUL then EmptyString else String c (c_str rest)
  end.

Fixpoint contains (c : ascii) (s : string) : bool :=
  match s with
  | EmptyString => false
  | String d rest => Ascii.eqb d c || contains c rest
  end.

Module rapidjson.

(** Numbers as the reader stores them: an integer literal in
    [-2^63, 2^64) keeps its integer value, every other number is a
    double (kept as its IEEE-754 bit pattern). *)
Inductive Number : Type :=
| Integer (z : Z)
| Double (bits : Z).

Inductive Value : Type :=
| kNull
| kFalse
| kTrue
| kObject (members : list (string * Value))
| kArray (elements : list Value)
| kString (s : string)
| kNumber (n : Number).

Definition IsObject (v : Value) : bool :=
  match v with kObject _ => true | _ => false end.

Definition IsArray (v : Value) : bool :=
  match v with kArray _ => true | _ => false end.

Definition IsString (v : Value) : bool :=
  match v with kString _ => true | _ => false end.

(** [kInt64Flag] is set exactly on the integers an [int64_t] holds. *)
Definition IsInt64 (v : Value) : bool :=
  match v with
  | kNumber (Integer z) => (- 2 ^ 63 <=? z) && (z <? 2 ^ 63)
  | _ => false
  end.

(** [GetInt64] asserts [kInt64Flag]. *)
Definition GetInt64 (v : Value) : Outcome Z :=
  match v with
  | kNumber (Integer z) =>
      if (- 2 ^ 63 <=? z) && (z <? 2 ^ 63) then Returns z else Undefined
  | _ => Undefined
  end.

(** [GetString] asserts [IsString()] and hands out the start of the
    buffer; the buffer may hold NUL bytes (from an escaped U+0000), its
    length is kept apart. *)
Definition GetString (v : Value) : Outcome string :=
  match v with
  | kString s => Returns s
  | _ => Undefined
  end.

(** [FindMember]: the first member, in document order, whose name has
    the same length and bytes. *)
Definition FindMember (members : list (string * Value)) (name : string)
    : option (nat * (string * Value)) :=
  list_find (λ m, m.1 = name) members.

(** *** Pointers (RFC 6901) *)

Record Token : Type := mkToken { name : string; index : Z }.

(** [SizeType] is a 32-bit [unsigned]. *)
Definition SizeType_modulus : Z := 2 ^ 32.
Definition kPointerInvalidIndex : Z := SizeType_modulus - 1.

Definition digit_value (c : ascii) : Z := Z.of_N (N_of_ascii c) - 48.

Definition is_digit (c : ascii) : bool :=
  (0 <=? digit_value c) && (digit_value c <=? 9).

Fixpoint all_digits (s : string) : bool :=
  match s with
  | EmptyString => true
  | String c rest => is_digit c && all_digits rest
  end.

Definition leading_zero (s : string) : bool :=
  match s with
  | String c (String _ _) => Ascii.eqb c "0"
  | _ => false
  end.

(** String to [SizeType] conversion, with the reader's overflow test
    [m < n] on the wrapped product. *)
Fixpoint to_SizeType (n : Z) (digits : string) : option Z :=
  match digits with
  | EmptyString => Some n
  | String c rest =>
      let m := (n * 10 + digit_value c) mod SizeType_modulus in
      if m <? n then None else to_SizeType m rest
  end.

Definition token_index (name : string) : Z :=
  match name with
  | EmptyString => kPointerInvalidIndex
  | String _ _ =>
      if all_digits name && negb (leading_zero name) then
        match to_SizeType 0 name with
        | Some n => n
        | None => kPointerInvalidIndex
        end
      else kPointerInvalidIndex
  end.

Definition token_of_name (name : string) : Token :=
  mkToken name (token_index name).

Definition push_char (c : ascii) (names : list string) : list string :=
  match names with
  | name :: rest => String c name :: rest
  | [] => [String c EmptyString]
  end.

(** The names of the tokens of [source], read from just after a
    consumed solidus: a solidus ends the token, [~0] decodes to a tilde
    and [~1] to a solidus, any other use of the tilde is
    [kPointerParseErrorInvalidEscape]. *)
Fixpoint parse_names (source : string) : option (list string) :=
  match source with
  | EmptyString => Some [EmptyString]
  | String c rest =>
      if Ascii.eqb c "/" then cons EmptyString <$> parse_names rest
      else if Ascii.eqb c "~" then
        match rest with
        | String e rest' =>
            if Ascii.eqb e "0" then push_char "~" <$> parse_names rest'
            else if Ascii.eqb e "1" then push_char "/" <$> parse_names rest'
            else None
        | EmptyString => None
        end
      else push_char c <$> parse_names rest
  end.

(** [Get]: walk the tokens down from [root]; [None] is the null
    pointer returned at the first unresolved token. *)
Fixpoint Get (root : Value) (tokens : list Token) : option Value :=
  match tokens with
  | [] => Some root
  | t :: rest =>
      match root with
      | kObject members =>
          match FindMember members (name t) with
          | Some (_, (_, v)) => Get v rest
          | None => None
          end
      | kArray elements =>
          if (index t =? kPointerInvalidIndex)
             || (Z.of_nat (length elements) <=? index t)
          then None
          else
            match elements !! Z.to_nat (index t) with
            | Some v => Get v rest
            | None => None
            end
      | _ => None
      end
  end.

(** [Erase]: resolve all tokens but the last, then [EraseMember] (the
    first member of that name; the later members move up in order) or
    the array's [Erase] (the later elements move down).  The document
    is changed in place; the changed document is returned next to the
    flag.  The root cannot be erased. *)
Fixpoint Erase (root : Value) (tokens : list Token) : bool * Value :=
  match tokens with
  | [] => (false, root)
  | t :: rest =>
      match rest with
      | [] =>
          match root with
          | kObject members =>
              match FindMember members (name t) with
              | Some (i, _) => (true, kObject (delete i members))
              | None => (false, root)
              end
          | kArray elements =>
              if (index t =? kPointerInvalidIndex)
                 || (Z.of_nat (length elements) <=? index t)
              then (false, root)
              else (true, kArray (delete (Z.to_nat (index t)) elements))
          | _ => (false, root)
          end
      | _ :: _ =>
          match root with
          | kObject members =>
              match FindMember members (name t) with
              | Some (i, (n, v)) =>
                  let '(erased, v') := Erase v rest in
                  (erased, kObject (<[i := (n, v')]> members))
              | None => (false, root)
              end
          | kArray elements =>
              if (index t =? kPointerInvalidIndex)
                 || (Z.of_nat (length elements) <=? index t)
              then (false, root)
              else
                match elements !! Z.to_nat (index t) with
                | Some v =>
                    let '(erased, v') := Erase v rest in
                    (erased, kArray (<[Z.to_nat (index t) := v']> elements))
                | None => (false, root)
                end
          | _ => (false, root)
          end
      end
  end.

(** [ParseErrorCode] of the reader. *)
Inductive ParseErrorCode : Type :=
| kParseErrorDocumentEmpty
| kParseErrorDocumentRootNotSingular
| kParseErrorValueInvalid
| kParseErrorObjectMissName
| kParseErrorObjectMissColon
| kParseErrorObjectMissCommaOrCurlyBracket
| kParseErrorArrayMissCommaOrSquareBracket
| kParseErrorStringUnicodeEscapeInvalidHex
| kParseErrorStringUnicodeSurrogateInvalid
| kParseErrorStringEscapeInvalid
| kParseErrorStringMissQuotationMark
| kParseErrorStringInvalidEncoding
| kParseErrorNumberTooBig
| kParseErrorNumberMissFraction
| kParseErrorNumberMissExponent
| kParseErrorTermination
| kParseErrorUnspecificSyntaxError.

(** The parts of rapidjson taken as given: the reader
    ([Document::Parse] with [GetParseError], the English message
    table), the writer ([Accept] into a [StringBuffer]) and the URI
    fragment form of a pointer (the text after [#], percent-decoded). *)
Class Library : Type := {
  Parse : string → Value + ParseErrorCode;
  GetParseError_En : ParseErrorCode → string;
  Accept : Value → string;
  ParseUriFragment : string → option (list Token)
}.

(** The [Pointer] constructor on a C string: the token list, or [None] when the
    constructed pointer is not valid.  The source is read up to its
    NUL ([StrLen]). *)
Definition Pointer {lib : Library} (source : string) : option (list Token) :=
  match c_str source with
  | EmptyString => Some []
  | String c rest =>
      if Ascii.eqb c "#" then ParseUriFragment rest
      else if Ascii.eqb c "/" then map token_of_name <$> parse_names rest
      else None
  end.

(** [GetValueByPointer] and [EraseValueByPointer] assert [IsValid()]. *)
Definition GetValueByPointer (root : Value) (pointer : option (list Token))
    : Outcome (option Value) :=
  match pointer with
  | Some tokens => Returns (Get root tokens)
  | None => Undefined
  end.

Definition EraseValueByPointer (root : Value) (pointer : option (list Token))
    : Outcome (bool * Value) :=
  match pointer with
  | Some tokens => Returns (Erase root tokens)
  | None => Undefined
  end.

End rapidjson.

Import rapidjson.

(** ** utils *)

(** [utils/digest.h] is not among the sources: [md5sum data len] is
    taken as given, as a function of the [len] bytes it is handed. *)
Class Digest : Type := { md5sum : string → string }.

(** [from] occurs at the start of [str]. *)
Fixpoint starts_with (from str : string) : bool :=
  match from with
  | EmptyString => true
  | String a from' =>
      match str with
      | EmptyString => false
      | String b str' => Ascii.eqb a b && starts_with from' str'
      end
  end.

(** Modelled from the spec: [string_replace] of [utils/string.h] is not
    among the sources.  [string_replace str from to] rewrites [str] in
    place, replacing each occurrence of [from] by [to], left to right,
    resuming after the inserted text (a literal solidus in the name is
    escaped to the two-character sequence tilde, one).  [skip] counts
    the bytes of a matched [from] still to be passed over. *)
Fixpoint replace_from (skip : nat) (str from to : string) : string :=
  match str with
  | EmptyString => EmptyString
  | String c rest =>
      match skip with
      | S k => replace_from k rest from to
      | O =>
          if negb (String.eqb from EmptyString) && starts_with from str
          then to +:+ replace_from (String.length from - 1) rest from to
          else String c (replace_from 0 rest from to)
      end
  end.

Definition string_replace (str from to : string) : string :=
  replace_from 0 str from to.

(** ** The error sink

    [openrasp_error(E_WARNING, error_code, format, ...)] is called at
    three places of [verify], each with a format of its own; a report
    records which call was made and with which arguments. *)
Inductive Report : Type :=
| ParseFailure (error_code : Z) (error_msg : string)
| TransportFailure (error_code : Z) (http_code : Z)
| ApiFailure (error_code : Z) (status : Z) (description : string).

(** Modelled from the spec: the declaration of [PluginUpdatePackage] is
    not among the sources; a package holds the three strings its
    constructor is given: source code, version and digest. *)
Module PluginUpdatePackage.
Record t : Type := make { sourceCode : string; version : string; digest : string }.
End PluginUpdatePackage.

(** ** BackendResponse *)

(** Modelled from the spec: the class declaration ([backend_response.h])
    is not among the sources.  The data members are those the member
    functions use; [parse_error] starts false, so that [has_error] is
    true if and only if parsing the body failed. *)
Record BackendResponse : Type := {
  parse_error : bool;
  response_code : Z;
  header_string : string;
  response_string : string;
  error_msg : string;
  document : Value
}.

(** [std::map::insert] keeps the entry already stored under the key. *)
Definition map_insert (m : gmap string (list string)) (k : string)
    (v : list string) : gmap string (list string) :=
  match m !! k with
  | Some _ => m
  | None => <[k := v]> m
  end.

Section BackendResponse.
Context {lib : Library} {dig : Digest}.

(** The constructor: the body is parsed once, as a C string; on a parse
    error the document stays the null value and the message is kept. *)
Definition new (response_code : Z) (header_string response_string : string)
    : BackendResponse :=
  match Parse (c_str response_string) with
  | inl root =>
      {| parse_error := false;
         response_code := response_code;
         header_string := header_string;
         response_string := response_string;
         error_msg := EmptyString;
         document := root |}
  | inr code =>
      {| parse_error := true;
         response_code := response_code;
         header_string := header_string;
         response_string := response_string;
         error_msg := c_str (GetParseError_En code);
         document := kNull |}
  end.

Definition has_error (this : BackendResponse) : bool :=
  parse_error this.

Definition get_http_code (this : BackendResponse) : Z :=
  response_code this.

Definition http_code_ok (this : BackendResponse) : bool :=
  (200 <=? response_code this) && (response_code this <? 300).

(** The fetchers read [document] and assign only to their out-parameter
    [target]: they take its contents before the call and return the
    flag with its contents after the call. *)
Definition fetch_int64 (this : BackendResponse) (key : string) (target : Z)
    : Outcome (bool * Z) :=
  value ← GetValueByPointer (document this) (Pointer key);
  match value with
  | Some v =>
      if IsInt64 v then i ← GetInt64 v; mret (true, i)
      else mret (false, target)
  | None => mret (false, target)
  end.

Definition fetch_string (this : BackendResponse) (key : string)
    (target : string) : Outcome (bool * string) :=
  value ← GetValueByPointer (document this) (Pointer key);
  match value with
  | Some v =>
      if IsString v then s ← GetString v; mret (true, c_str s)
      else mret (false, target)
  | None => mret (false, target)
  end.

Definition stringify_object (this : BackendResponse) (key : string)
    (target : string) : Outcome (bool * string) :=
  value ← GetValueByPointer (document this) (Pointer key);
  match value with
  | Some v =>
      if IsObject v then mret (true, c_str (Accept v))
      else mret (true, target)
  | None => mret (true, target)
  end.

Definition erase_value (this : BackendResponse) (key : string)
    : Outcome (bool * BackendResponse) :=
  '(erased, root) ← EraseValueByPointer (document this) (Pointer key);
  mret (erased,
        {| parse_error := parse_error this;
           response_code := response_code this;
           header_string := header_string this;
           response_string := response_string this;
           error_msg := error_msg this;
           document := root |}).

Definition fetch_status (this : BackendResponse) (status : Z)
    : Outcome (bool * Z) :=
  fetch_int64 this "/status" status.

Definition fetch_description (this : BackendResponse) (description : string)
    : Outcome (bool * string) :=
  fetch_string this "/description" description.

(** [verify] returns its flag and the reports it sent to the sink.
    The local [status] starts indeterminate (0 stands for it; it is
    read only after a successful fetch), [description] starts empty. *)
Definition verify (this : BackendResponse) (error_code : Z)
    : Outcome (bool * list Report) :=
  if has_error this then
    mret (false, [ParseFailure error_code (c_str (error_msg this))])
  else if negb (http_code_ok this) then
    mret (false, [TransportFailure error_code (get_http_code this)])
  else
    '(has_status, status) ← fetch_status this 0;
    '(has_description, description) ← fetch_description this EmptyString;
    if has_status && has_description then
      if negb (0 =? status) then
        mret (false, [ApiFailure error_code status (c_str description)])
      else mret (true, [])
    else mret (true, []).

Definition build_plugin_update_package (this : BackendResponse)
    : Outcome (option PluginUpdatePackage.t) :=
  '(has_plugin, plugin) ← fetch_string this "/data/plugin/plugin" EmptyString;
  if has_plugin : bool then
    '(has_md5, md5) ← fetch_string this "/data/plugin/md5" EmptyString;
    if has_md5 : bool then
      let cal_md5 := md5sum plugin in
      if negb (String.eqb cal_md5 md5) then mret None
      else
        '(has_version, version) ←
          fetch_string this "/data/plugin/version" EmptyString;
        if negb has_version then mret None
        else mret (Some (PluginUpdatePackage.make plugin version md5))
    else mret None
  else mret None.

Definition fetch_object_keys (this : BackendResponse) (key : string)
    : Outcome (list string) :=
  value ← GetValueByPointer (document this) (Pointer key);
  match value with
  | Some (kObject members) => mret (map (λ m, c_str m.1) members)
  | _ => mret []
  end.

(** The loop of [fetch_string_array]: [GetString] on each element in
    turn, pushed as a C string. *)
Fixpoint push_strings (elements : list Value) : Outcome (list string) :=
  match elements with
  | [] => mret []
  | v :: rest =>
      s ← GetString v;
      values ← push_strings rest;
      mret (c_str s :: values)
  end.

Definition fetch_string_array (this : BackendResponse) (key : string)
    : Outcome (list string) :=
  value ← GetValueByPointer (document this) (Pointer key);
  match value with
  | Some (kArray elements) => push_strings elements
  | _ => mret []
  end.

(** The loop of [build_hook_white_map] over the fetched keys. *)
Fixpoint insert_hooks (this : BackendResponse) (key : string)
    (keys : list string) (hook_white_map : gmap string (list string))
    : Outcome (gmap string (list string)) :=
  match keys with
  | [] => mret hook_white_map
  | key_item :: rest =>
      let json_ptr := string_replace key_item "/" "~1" in
      white_types ←
        fetch_string_array this (c_str key +:+ "/" +:+ json_ptr);
      insert_hooks this key rest
        (map_insert hook_white_map key_item white_types)
  end.

Definition build_hook_white_map (this : BackendResponse) (key : string)
    : Outcome (gmap string (list string)) :=
  keys ← fetch_object_keys this key;
  insert_hooks this key keys ∅.

End BackendResponse.

(** ** Reading the document

    [node_at this key] is the node [key] resolves to: [None] when the
    pointer is not valid or some token does not resolve. *)
Definition node_at {lib : Library} (this : BackendResponse) (key : string)
    : option Value :=
  tokens ← Pointer key; Get (document this) tokens.

(** ** Calls in succession

    A member function runs on the envelope and leaves the envelope to
    the next call.  [Member A] is such a call with a result in [A]:
    [get_document] reads the data member [document], [set_document]
    assigns it, and [library] is a call into rapidjson, which touches
    no data member: [GetValueByPointer] resolves without creating, the
    type tests and accessors are [const], and what
    [EraseValueByPointer] does to the document in place is the root it
    returns, which [set_document] stores. *)
Definition Member (A : Type) : Type :=
  BackendResponse → Outcome (A * BackendResponse).

#[global] Instance Member_ret : MRet Member := λ A a this, Returns (a, this).
#[global] Instance Member_bind : MBind Member := λ A B f m this,
  match m this with
  | Returns (a, this') => f a this'
  | Undefined => Undefined
  end.

Definition get_document : Member Value :=
  λ this, Returns (document this, this).

Definition set_document (root : Value) : Member unit :=
  λ this,
    Returns (tt,
             {| parse_error := parse_error this;
                response_code := response_code this;
                header_string := header_string this;
                response_string := response_string this;
                error_msg := error_msg this;
                document := root |}).

Definition library {A : Type} (result : Outcome A) : Member A :=
  λ this,
    match result with
    | Returns a => Returns (a, this)
    | Undefined => Undefined
    end.

Section Calls.
Context {lib : Library}.

(** The fetchers and [erase_value] as calls, statement by statement as
    in the source: every one hands [document] to rapidjson, and
    [erase_value] alone to a function that changes it. *)
Definition call_fetch_int64 (key : string) (target : Z) : Member (bool * Z) :=
  root ← get_document;
  value ← library (GetValueByPointer root (Pointer key));
  match value with
  | Some v =>
      if IsInt64 v then i ← library (GetInt64 v); mret (true, i)
      else mret (false, target)
  | None => mret (false, target)
  end.

Definition call_fetch_string (key : string) (target : string)
    : Member (bool * string) :=
  root ← get_document;
  value ← library (GetValueByPointer root (Pointer key));
  match value with
  | Some v =>
      if IsString v then s ← library (GetString v); mret (true, c_str s)
      else mret (false, target)
  | None => mret (false, target)
  end.

Definition call_stringify_object (key : string) (target : string)
    : Member (bool * string) :=
  root ← get_document;
  value ← library (GetValueByPointer root (Pointer key));
  match value with
  | Some v =>
      if IsObject v then mret (true, c_str (Accept v))
      else mret (true, target)
  | None => mret (true, target)
  end.

Definition call_fetch_object_keys (key : string) : Member (list string) :=
  root ← get_document;
  value ← library (GetValueByPointer root (Pointer key));
  match value with
  | Some (kObject members) => mret (map (λ m, c_str m.1) members)
  | _ => mret []
  end.

Definition call_fetch_string_array (key : string) : Member (list string) :=
  root ← get_document;
  value ← library (GetValueByPointer root (Pointer key));
  match value with
  | Some (kArray elements) => library (push_strings elements)
  | _ => mret []
  end.

Definition call_erase_value (key : string) : Member bool :=
  root ← get_document;
  '(erased, root') ← library (EraseValueByPointer root (Pointer key));
  _ ← set_document root';
  mret erased.

End Calls.

(** *** Concrete envelopes

    A stand-in for the library, enough to run the envelope on concrete
    inputs: its reader knows the empty object and rejects every other
    text, and its pointers have no URI fragment form.  The digest
    stand-in is the identity. *)
Definition sample_library : Library := {|
  Parse := λ text,
    if String.eqb text "{}" then inl (kObject [])
    else inr kParseErrorValueInvalid;
  GetParseError_En := λ _, "Invalid value.";
  Accept := λ _, "{}";
  ParseUriFragment := λ _, None
|}.

Definition sample_digest : Digest := {| md5sum := λ data, data |}.

(** The envelope of a response whose body parsed to [root]. *)
Definition parsed (response_code : Z) (root : Value) : BackendResponse :=
  {| parse_error := false;
     response_code := response_code;
     header_string := EmptyString;
     response_string := EmptyString;
     error_msg := EmptyString;
     document := root |}.

(** A 2xx response that carries an API status but no description. *)
Definition status_only : BackendResponse :=
  parsed 200 (kObject [("status", kNumber (Integer 1))]).

(** A 2xx response that carries an API error with its description. *)
Definition api_error : BackendResponse :=
  parsed 200 (kObject [("status", kNumber (Integer 1));
                       ("description", kString "bad")]).

(** A document with a number under [a] and nothing under [missing]. *)
Definition number_at_a : BackendResponse :=
  parsed 200 (kObject [("a", kNumber (Integer 1))]).

(** A document with an empty array under [a] and nothing under [b]. *)
Definition empty_array_at_a : BackendResponse :=
  parsed 200 (kObject [("a", kArray [])]).

(** A document with two strings under [a]. *)
Definition two_strings_at_a : BackendResponse :=
  parsed 200 (kObject [("a", kArray [kString "x"; kString "y"])]).

(** A document whose array under [a] holds the three-byte string
    x, NUL, y (the body spells the NUL as an escaped U+0000). *)
Definition nul_in_element : BackendResponse :=
  parsed 200 (kObject [("a", kArray [kString (String "x" (String NUL "y"))])]).

(** A document with two numbers in the array under [a]. *)
Definition two_numbers_at_a : BackendResponse :=
  parsed 200 (kObject [("a", kArray [kNumber (Integer 1); kNumber (Integer 2)])]).

(** The whitelist of the specification: two bypass types for [hookA],
    none for [hookB]. *)
Definition hook_white : BackendResponse :=
  parsed 200
    (kObject [("data",
               kObject [("hookA", kArray [kString "bypass1"; kString "bypass2"]);
                        ("hookB", kArray [])])]).

(** A whitelist with a number among the bypass types. *)
Definition number_in_white : BackendResponse :=
  parsed 200 (kObject [("data", kObject [("hookA", kArray [kNumber (Integer 1)])])]).

(** A whitelist with a solidus in a hook name. *)
Definition solidus_hook : BackendResponse :=
  parsed 200
    (kObject [("data", kObject [("sql/select", kArray [kString "x"])])]).

(** Whitelists with a tilde in a hook name: followed by a zero, and
    followed by another letter. *)
Definition tilde_zero_hook : BackendResponse :=
  parsed 200 (kObject [("data", kObject [("a~0b", kArray [kString "x"])])]).

Definition tilde_hook : BackendResponse :=
  parsed 200 (kObject [("data", kObject [("a~b", kArray [kString "x"])])]).

(** The body of an empty object followed by a NUL byte and more bytes. *)
Definition object_then_nul : string := "{}" +:+ String NUL "garbage".

(** A plugin offer whose digest matches under [sample_digest], with and
    without a version. *)
Definition plugin_offer : BackendResponse :=
  parsed 200
    (kObject [("data",
               kObject [("plugin",
                         kObject [("plugin", kString "print(1);");
                                  ("md5", kString "print(1);");
                                  ("version", kString "2019-0101")])])]).

Definition plugin_offer_without_version : BackendResponse :=
  parsed 200
    (kObject [("data",
               kObject [("plugin",
                         kObject [("plugin", kString "print(1);");
                                  ("md5", kString "print(1);")])])]).

(** A digest stand-in whose values hold no NUL byte: one [f] for each
    byte of the data. *)
Fixpoint tally (data : string) : string :=
  match data with
  | EmptyString => EmptyString
  | String _ rest => String "f" (tally rest)
  end.

Definition length_digest : Digest := {| md5sum := tally |}.

(** Plugin offers whose source code is the three bytes a, NUL, b (the
    body spells the NUL as an escaped U+0000).  The first carries the
    digest of the three bytes under [length_digest], the second the
    digest of the byte before the NUL. *)
Definition source_with_nul : string := String "a" (String NUL "b").

Definition nul_plugin_offer : BackendResponse :=
  parsed 200
    (kObject [("data",
               kObject [("plugin",
                         kObject [("plugin", kString source_with_nul);
                                  ("md5", kString "fff");
                                  ("version", kString "v1")])])]).

Definition nul_plugin_offer_prefix_digest : BackendResponse :=
  parsed 200
    (kObject [("data",
               kObject [("plugin",
                         kObject [("plugin", kString source_with_nul);
                                  ("md5", kString "f");
                                  ("version", kString "v1")])])]).

(** ** config.w32: the commit id

    When the extension is enabled ([PHP_OPENRASP] is not the string
    [no]) the configure script defines [OPENRASP_COMMIT_ID] if
    [WHERE git] exits with 0: it reads the output of [git describe --always] until
    the end of the stream, appending what each [readAll] returns, and
    replaces every match of the pattern CR LF, or LF, or CR by the empty
    string.  A text is a list of UTF-16 code units. *)
Definition CR : N := 13.
Definition LF : N := 10.

(** The global replace: at each position the alternatives are tried in
    the order of the pattern, a match is dropped and the scan resumes
    after it, another code unit is kept. *)
Fixpoint replace_line_breaks (text : list N) : list N :=
  match text with
  | [] => []
  | c :: rest =>
      if (c =? CR)%N then
        match rest with
        | d :: rest' =>
            if (d =? LF)%N then replace_line_breaks rest'
            else replace_line_breaks rest
        | [] => []
        end
      else if (c =? LF)%N then replace_line_breaks rest
      else c :: replace_line_breaks rest
  end.

(** [commitId PHP_OPENRASP ret reads] is the value
    [OPENRASP_COMMIT_ID] is defined to, if it is defined, for the
    configure option [PHP_OPENRASP], the exit code [ret] and the texts
    [reads] the successive [readAll] calls return.  With the option
    [no] the script runs nothing and defines nothing. *)
Definition commitId (PHP_OPENRASP : string) (ret : Z) (reads : list (list N))
    : option (list N) :=
  if negb (String.eqb PHP_OPENRASP "no") then
    if ret =? 0 then Some (replace_line_breaks (concat reads)) else None
  else None.

(** A 2xx response whose document root is an array. *)
Definition array_root : BackendResponse := parsed 200 (kArray []).

(** A whitelist whose hook is given a boolean in place of an array. *)
Definition flag_hook : BackendResponse :=
  parsed 200 (kObject [("data", kObject [("hookA", kTrue)])]).

(** Runs the binds of a call and of the member function it is compared
    with. *)
Ltac run_call :=
  cbv [mbind mret Member_bind Member_ret Outcome_bind Outcome_ret
       get_document set_document library
       GetValueByPointer EraseValueByPointer].

(** * Properties *)

#[local] Arguments Get : simpl never.
#[local] Arguments Erase : simpl never.
#[local] Arguments node_at : simpl never.

Section CStrings.
Implicit Types (s t : string) (c : ascii).

Lemma c_str_free s : contains NUL (c_str s) = false.
Proof.
  induction s as [|c s IH]; [done|]. cbn.
  destruct (Ascii.eqb_spec c NUL) as [->|Hc]; [done|]. cbn.
  rewrite IH. by destruct (Ascii.eqb_spec c NUL).
Qed.

Lemma c_str_id s : contains NUL s = false → c_str s = s.
Proof.
  induction s as [|c s IH]; [done|]. cbn.
  destruct (Ascii.eqb c NUL); [done|]. cbn. intros Hs. by rewrite IH.
Qed.

Lemma c_str_idemp s : c_str (c_str s) = c_str s.
Proof. apply c_str_id, c_str_free. Qed.

Lemma contains_app c s t :
  contains c (s +:+ t) = contains c s || contains c t.
Proof.
  induction s as [|d s IH]; [done|]. simpl. rewrite IH. by destruct (Ascii.eqb d c).
Qed.

End CStrings.

(** ** Pointers: appending an escaped token *)

Section Pointers.
Context {lib : Library}.
Implicit Types (s name source : string) (c : ascii) (names : list string).

Lemma parse_names_nonempty source names :
  parse_names source = Some names → names ≠ [].
Proof.
  destruct source as [|c rest]; cbn; [by intros [= <-]|].
  assert (∀ d o, push_char d <$> o = Some names → names ≠ []) as Hpush.
  { intros d [[|n ns]|]; cbn; by intros [= <-]. }
  destruct (Ascii.eqb c "/").
  { destruct (parse_names rest); cbn; by intros [= <-]. }
  destruct (Ascii.eqb c "~"); [|by eauto].
  destruct rest as [|e rest']; [done|].
  destruct (Ascii.eqb e "0"); [by eauto|].
  destruct (Ascii.eqb e "1"); [by eauto|done].
Qed.

Lemma push_char_app c names names' :
  names ≠ [] → push_char c (names ++ names') = push_char c names ++ names'.
Proof. by destruct names. Qed.

(** Two sources joined by a solidus give the tokens of the first
    followed by the tokens of the second. *)
Lemma parse_names_app source source' names names' :
  parse_names source = Some names →
  parse_names source' = Some names' →
  parse_names (source +:+ String "/" source') = Some (names ++ names').
Proof.
  intros Hs Hs'.
  enough (∀ (n : nat) source names,
             (String.length source < n)%nat →
             parse_names source = Some names →
             parse_names (source +:+ String "/" source') = Some (names ++ names'))
    as Hall by (eapply Hall; [apply Nat.lt_succ_diag_r|done]).
  clear source names Hs. induction n as [|n IH]; [lia|].
  intros source names Hlen. destruct source as [|c rest].
  { intros [= <-]. simpl. by rewrite Hs'. }
  intros Hs. simpl in Hlen.
  assert (∀ d tail ns,
            (String.length tail < n)%nat →
            push_char d <$> parse_names tail = Some ns →
            push_char d <$> parse_names (tail +:+ String "/" source')
            = Some (ns ++ names')) as Hpush.
  { intros d tail ns Htail Hns.
    destruct (parse_names tail) as [ns0|] eqn:Hns0; [|done].
    injection Hns as <-. rewrite (IH tail ns0 Htail Hns0). cbn.
    by rewrite push_char_app by by eapply parse_names_nonempty. }
  simpl in Hs |- *.
  destruct (Ascii.eqb c "/").
  { destruct (parse_names rest) as [ns0|] eqn:Hrest; [|done].
    injection Hs as <-. rewrite (IH rest ns0) by (done || lia). done. }
  destruct (Ascii.eqb c "~"); [|apply Hpush; [lia|done]].
  destruct rest as [|e rest']; [done|]. simpl in Hs, Hlen |- *.
  destruct (Ascii.eqb e "0"); [apply Hpush; [lia|done]|].
  destruct (Ascii.eqb e "1"); [apply Hpush; [lia|done]|done].
Qed.

Lemma string_replace_solidus c rest :
  string_replace (String c rest) "/" "~1"
  = if Ascii.eqb c "/"
    then String "~" (String "1" (string_replace rest "/" "~1"))
    else String c (string_replace rest "/" "~1").
Proof.
  unfold string_replace. cbn -[Ascii.eqb]. rewrite Ascii.eqb_sym.
  by destruct (Ascii.eqb c "/").
Qed.

Lemma string_replace_free c name :
  c ≠ "~"%char → c ≠ "1"%char →
  contains c name = false →
  contains c (string_replace name "/" "~1") = false.
Proof.
  intros H0 H1. induction name as [|d name IH]; [done|].
  rewrite string_replace_solidus. cbn -[Ascii.eqb].
  intros [Hd Hn]%orb_false_iff.
  destruct (Ascii.eqb d "/"); cbn -[Ascii.eqb]; rewrite (IH Hn).
  - destruct (Ascii.eqb_spec "~" c); [by subst|].
    destruct (Ascii.eqb_spec "1" c); [by subst|done].
  - by rewrite Hd.
Qed.

(** A name free of tildes, once its solidi are escaped, is read back
    as the single token of that name. *)
Lemma parse_names_escaped name :
  contains "~" name = false →
  parse_names (string_replace name "/" "~1") = Some [name].
Proof.
  induction name as [|c name IH]; [done|].
  rewrite string_replace_solidus. cbn -[Ascii.eqb].
  intros [Hc Hn]%orb_false_iff.
  destruct (Ascii.eqb_spec c "/") as [->|Hs].
  - simpl. by rewrite (IH Hn).
  - cbn -[Ascii.eqb]. rewrite Hc.
    destruct (Ascii.eqb_spec c "/"); [done|]. by rewrite (IH Hn).
Qed.

(** The pointer [build_hook_white_map] builds for the member
    [key_item] of the object at [key]. *)
Lemma Pointer_child key tokens key_item :
  Pointer key = Some tokens →
  (∀ rest, c_str key ≠ String "#" rest) →
  contains "~" key_item = false →
  contains NUL key_item = false →
  Pointer (c_str key +:+ "/" +:+ string_replace key_item "/" "~1")
  = Some (tokens ++ [token_of_name key_item]).
Proof.
  intros Hp Hfragment Htilde Hnul.
  change ("/" +:+ ?json_ptr) with (String "/" json_ptr).
  pose proof (parse_names_escaped _ Htilde) as Hescaped.
  assert (contains NUL (string_replace key_item "/" "~1") = false) as Hfree
    by by apply string_replace_free.
  set (json_ptr := string_replace key_item "/" "~1") in *. clearbody json_ptr.
  unfold Pointer in *.
  rewrite c_str_id; last first.
  { rewrite contains_app, c_str_free. exact Hfree. }
  destruct (c_str key) as [|c rest].
  { injection Hp as <-. simpl. by rewrite Hescaped. }
  simpl. destruct (Ascii.eqb_spec c "#") as [->|_]; [by destruct (Hfragment rest)|].
  destruct (Ascii.eqb c "/"); [|done].
  destruct (parse_names rest) as [names|] eqn:Hnames; [|done].
  injection Hp as <-.
  rewrite (parse_names_app _ _ _ [key_item] Hnames Hescaped).
  cbn. by rewrite map_app.
Qed.

End Pointers.

(** ** Resolution and erasure *)

Section Resolution.
Implicit Types (root v : Value) (t : Token) (tokens : list Token).
Implicit Types (members : list (string * Value)) (elements : list Value).

Lemma Get_cons root t tokens :
  Get root (t :: tokens)
  = match root with
    | kObject members =>
        match FindMember members (name t) with
        | Some (_, (_, v)) => Get v tokens
        | None => None
        end
    | kArray elements =>
        if (index t =? kPointerInvalidIndex)
           || (Z.of_nat (length elements) <=? index t)
        then None
        else
          match elements !! Z.to_nat (index t) with
          | Some v => Get v tokens
          | None => None
          end
    | _ => None
    end.
Proof. done. Qed.

Lemma Get_app root tokens tokens' :
  Get root (tokens ++ tokens') = Get root tokens ≫= λ v, Get v tokens'.
Proof.
  revert root. induction tokens as [|t tokens IH]; intros root; [done|].
  rewrite <-app_comm_cons, !Get_cons.
  destruct root as [| | |members|elements| |]; try done.
  - by destruct (FindMember _ _) as [[? [? v]]|].
  - destruct (_ || _); [done|]. by destruct (_ !! _).
Qed.

Lemma Get_member members name :
  Get (kObject members) [token_of_name name]
  = match FindMember members name with
    | Some (_, (_, v)) => Some v
    | None => None
    end.
Proof. rewrite Get_cons. by destruct (FindMember _ _) as [[? [? v]]|]. Qed.

Lemma FindMember_Some members name i m :
  FindMember members name = Some (i, m)
  ↔ members !! i = Some m ∧ m.1 = name
    ∧ ∀ j y, members !! j = Some y → (j < i)%nat → y.1 ≠ name.
Proof. apply (list_find_Some (λ m : string * Value, m.1 = name)). Qed.

Lemma FindMember_elem members name :
  name ∈ members.*1 →
  ∃ i v, FindMember members name = Some (i, (name, v)) ∧ (name, v) ∈ members.
Proof.
  intros ([n v] & -> & Hin)%list_elem_of_fmap.
  destruct (list_find_elem_of (λ m, m.1 = n) members (n, v) Hin eq_refl)
    as [[i [n' v']] Hfind].
  pose proof Hfind as (Hi & Hn & _)%FindMember_Some. cbn in Hn. subst n'.
  exists i, v'. split; [done|]. by eapply list_elem_of_lookup_2.
Qed.

Lemma FindMember_insert members name i n v v' :
  FindMember members name = Some (i, (n, v)) →
  FindMember (<[i := (n, v')]> members) name = Some (i, (n, v')).
Proof.
  intros (Hi & Hn & Hleast)%FindMember_Some. apply FindMember_Some.
  split; [|split; [done|]].
  - apply list_lookup_insert_eq. by eapply lookup_lt_Some.
  - intros j y Hj Hlt. rewrite list_lookup_insert_ne in Hj by lia. eauto.
Qed.

Lemma FindMember_delete members name i m :
  NoDup members.*1 →
  FindMember members name = Some (i, m) →
  FindMember (delete i members) name = None.
Proof.
  intros Hdup (Hi & Hn & _)%FindMember_Some.
  apply list_find_None, Forall_forall. intros y Hy Hname.
  apply list_elem_of_lookup in Hy as [j Hj].
  rewrite list_lookup_delete in Hj.
  assert (members.*1 !! i = Some name) as Hi'
    by by rewrite list_lookup_fmap, Hi, <-Hn.
  case_decide.
  - assert (members.*1 !! j = Some name) as Hj'
      by by rewrite list_lookup_fmap, Hj, <-Hname.
    pose proof (NoDup_lookup _ _ _ _ Hdup Hi' Hj'). lia.
  - assert (members.*1 !! S j = Some name) as Hj'
      by by rewrite list_lookup_fmap, Hj, <-Hname.
    pose proof (NoDup_lookup _ _ _ _ Hdup Hi' Hj'). lia.
Qed.

Lemma Erase_last root t :
  Erase root [t]
  = match root with
    | kObject members =>
        match FindMember members (name t) with
        | Some (i, _) => (true, kObject (delete i members))
        | None => (false, root)
        end
    | kArray elements =>
        if (index t =? kPointerInvalidIndex)
           || (Z.of_nat (length elements) <=? index t)
        then (false, root)
        else (true, kArray (delete (Z.to_nat (index t)) elements))
    | _ => (false, root)
    end.
Proof. done. Qed.

Lemma Erase_cons root t t' tokens :
  Erase root (t :: t' :: tokens)
  = match root with
    | kObject members =>
        match FindMember members (name t) with
        | Some (i, (n, v)) =>
            let '(erased, v') := Erase v (t' :: tokens) in
            (erased, kObject (<[i := (n, v')]> members))
        | None => (false, root)
        end
    | kArray elements =>
        if (index t =? kPointerInvalidIndex)
           || (Z.of_nat (length elements) <=? index t)
        then (false, root)
        else
          match elements !! Z.to_nat (index t) with
          | Some v =>
              let '(erased, v') := Erase v (t' :: tokens) in
              (erased, kArray (<[Z.to_nat (index t) := v']> elements))
          | None => (false, root)
          end
    | _ => (false, root)
    end.
Proof. done. Qed.

(** A successful erasure resolves the tokens before the last to the
    same place before and after, and erases the last token there. *)
Lemma Erase_parent tokens : ∀ root last root',
  Erase root (tokens ++ [last]) = (true, root') →
  ∃ parent parent',
    Get root tokens = Some parent
    ∧ Erase parent [last] = (true, parent')
    ∧ Get root' tokens = Some parent'.
Proof.
  induction tokens as [|t tokens IH]; intros root last root' Herase.
  { exists root, root'. by rewrite app_nil_l in Herase. }
  rewrite <-app_comm_cons in Herase.
  destruct (tokens ++ [last]) as [|t' rest] eqn:Hrest;
    [by destruct tokens|].
  rewrite Erase_cons in Herase. rewrite <-Hrest in Herase. clear Hrest.
  destruct root as [| | |members|elements| |]; try done.
  - destruct (FindMember members (name t)) as [[i [n v]]|] eqn:Hfind; [|done].
    destruct (Erase v (tokens ++ [last])) as [erased v'] eqn:Hv.
    injection Herase as -> <-.
    destruct (IH _ _ _ Hv) as (parent & parent' & Hget & Hlast & Hget').
    exists parent, parent'. rewrite !Get_cons, Hfind.
    by rewrite (FindMember_insert _ _ _ _ _ v' Hfind).
  - destruct (_ || _) eqn:Hrange; [done|].
    destruct (elements !! _) as [v|] eqn:Hv; [|done].
    destruct (Erase v (tokens ++ [last])) as [erased v'] eqn:Hv'.
    injection Herase as -> <-.
    destruct (IH _ _ _ Hv') as (parent & parent' & Hget & Hlast & Hget').
    exists parent, parent'. rewrite !Get_cons, Hrange, Hv, length_insert, Hrange.
    by rewrite list_lookup_insert_eq by by eapply lookup_lt_Some.
Qed.

(** An erasure that reports failure has left the document as it was. *)
Lemma Erase_failed tokens : ∀ root root',
  Erase root tokens = (false, root') → root' = root.
Proof.
  induction tokens as [|t [|t' tokens] IH]; intros root root'.
  - by intros [= <-].
  - rewrite Erase_last.
    destruct root as [| | |members|elements| |]; try by intros [= <-].
    + by destruct (FindMember _ _) as [[i m]|]; intros [= <-].
    + by destruct (_ || _); intros [= <-].
  - rewrite Erase_cons.
    destruct root as [| | |members|elements| |]; try by intros [= <-].
    + destruct (FindMember members (name t)) as [[i [n v]]|] eqn:Hfind;
        [|by intros [= <-]].
      destruct (Erase v (t' :: tokens)) as [erased v'] eqn:Hv.
      intros [= -> <-]. rewrite (IH _ _ Hv).
      apply FindMember_Some in Hfind as (Hi & _ & _).
      by rewrite list_insert_id.
    + destruct (_ || _); [by intros [= <-]|].
      destruct (elements !! _) as [v|] eqn:Hi; [|by intros [= <-]].
      destruct (Erase v (t' :: tokens)) as [erased v'] eqn:Hv.
      intros [= -> <-]. rewrite (IH _ _ Hv). by rewrite list_insert_id.
Qed.

End Resolution.

Section Fetchers.
Context {lib : Library}.
Implicit Types (this : BackendResponse) (key : string) (v : Value).

Lemma node_at_valid this key tokens :
  Pointer key = Some tokens → node_at this key = Get (document this) tokens.
Proof. unfold node_at. by intros ->. Qed.

Lemma IsInt64_inv v :
  IsInt64 v = true → ∃ z, v = kNumber (Integer z) ∧ - 2 ^ 63 ≤ z < 2 ^ 63.
Proof.
  destruct v as [| | | | | |[z|]]; try done. cbn.
  rewrite andb_true_iff. intros. exists z. split; [done|lia].
Qed.

Lemma IsString_inv v : IsString v = true → ∃ s, v = kString s.
Proof. destruct v; try done. eauto. Qed.

(** With a valid pointer every scalar fetcher returns; what it
    returns is read off the node the pointer resolves to. *)
Lemma fetch_int64_valid this key tokens (target : Z) :
  Pointer key = Some tokens →
  fetch_int64 this key target
  = Returns
      match Get (document this) tokens with
      | Some (kNumber (Integer z) as v) =>
          if IsInt64 v then (true, z) else (false, target)
      | _ => (false, target)
      end.
Proof.
  intros Hp. unfold fetch_int64. rewrite Hp. cbn.
  destruct (Get _ _) as [v|]; [|done].
  destruct v as [| | | | | |[z|]]; try done.
  cbn. by destruct (_ && _).
Qed.

Lemma fetch_string_valid this key tokens (target : string) :
  Pointer key = Some tokens →
  fetch_string this key target
  = Returns
      match Get (document this) tokens with
      | Some (kString s) => (true, c_str s)
      | _ => (false, target)
      end.
Proof.
  intros Hp. unfold fetch_string. rewrite Hp. cbn.
  destruct (Get _ _) as [v|]; [|done]. by destruct v.
Qed.

Lemma stringify_object_valid this key tokens (target : string) :
  Pointer key = Some tokens →
  stringify_object this key target
  = Returns
      match Get (document this) tokens with
      | Some (kObject _ as v) => (true, c_str (Accept v))
      | _ => (true, target)
      end.
Proof.
  intros Hp. unfold stringify_object. rewrite Hp. cbn.
  destruct (Get _ _) as [v|]; [|done]. by destruct v.
Qed.

(** The flag of [stringify_object] does not depend on the node. *)
Lemma stringify_object_flag this key (target : string) :
  is_Some (Pointer key) →
  ∃ value, stringify_object this key target = Returns (true, value).
Proof.
  intros [tokens Hp]. rewrite (stringify_object_valid _ _ _ _ Hp).
  destruct (Get _ _) as [[]|]; eauto.
Qed.

Lemma fetch_object_keys_valid this key tokens :
  Pointer key = Some tokens →
  fetch_object_keys this key
  = Returns
      match Get (document this) tokens with
      | Some (kObject members) => map (λ m, c_str m.1) members
      | _ => []
      end.
Proof.
  intros Hp. unfold fetch_object_keys. rewrite Hp. cbn.
  destruct (Get _ _) as [v|]; [|done]. by destruct v.
Qed.

Lemma fetch_string_array_valid this key tokens :
  Pointer key = Some tokens →
  fetch_string_array this key
  = match Get (document this) tokens with
    | Some (kArray elements) => push_strings elements
    | _ => Returns []
    end.
Proof.
  intros Hp. unfold fetch_string_array. rewrite Hp. cbn.
  destruct (Get _ _) as [v|]; [|done]. by destruct v.
Qed.

Lemma push_strings_strings (strings : list string) :
  push_strings (kString <$> strings) = Returns (c_str <$> strings).
Proof. induction strings as [|s strings IH]; [done|]. cbn. by rewrite IH. Qed.

Lemma push_strings_returns (elements : list Value) (values : list string) :
  push_strings elements = Returns values →
  Forall (λ v, IsString v = true) elements.
Proof.
  revert values. induction elements as [|v elements IH]; intros values; [done|].
  cbn. destruct v; try done. cbn.
  destruct (push_strings elements) as [rest|] eqn:Hrest; [|done].
  intros _. constructor; [done|]. by eapply IH.
Qed.

Lemma all_strings (elements : list Value) :
  Forall (λ v, IsString v = true) elements →
  ∃ strings, elements = kString <$> strings.
Proof.
  induction 1 as [|v elements Hv _ [strings ->]]; [by exists []|].
  apply IsString_inv in Hv as [s ->]. by exists (s :: strings).
Qed.

(** What [build_plugin_update_package] returns, read off the nodes at
    its three paths. *)
Lemma build_plugin_update_package_nodes {dig : Digest} this :
  build_plugin_update_package this
  = Returns
      match node_at this "/data/plugin/plugin",
            node_at this "/data/plugin/md5" with
      | Some (kString plugin), Some (kString md5) =>
          if String.eqb (md5sum (c_str plugin)) (c_str md5) then
            match node_at this "/data/plugin/version" with
            | Some (kString version) =>
                Some (PluginUpdatePackage.make
                        (c_str plugin) (c_str version) (c_str md5))
            | _ => None
            end
          else None
      | _, _ => None
      end.
Proof.
  unfold build_plugin_update_package.
  rewrite (fetch_string_valid _ "/data/plugin/plugin"
             [token_of_name "data"; token_of_name "plugin";
              token_of_name "plugin"]) by done.
  rewrite (node_at_valid _ "/data/plugin/plugin"
             [token_of_name "data"; token_of_name "plugin";
              token_of_name "plugin"]) by done.
  rewrite (fetch_string_valid _ "/data/plugin/md5"
             [token_of_name "data"; token_of_name "plugin";
              token_of_name "md5"]) by done.
  rewrite (node_at_valid _ "/data/plugin/md5"
             [token_of_name "data"; token_of_name "plugin";
              token_of_name "md5"]) by done.
  rewrite (fetch_string_valid _ "/data/plugin/version"
             [token_of_name "data"; token_of_name "plugin";
              token_of_name "version"]) by done.
  rewrite (node_at_valid _ "/data/plugin/version"
             [token_of_name "data"; token_of_name "plugin";
              token_of_name "version"]) by done.
  destruct (Get _ [_; _; token_of_name "plugin"]) as [[| | | | |p|]|];
    try done.
  cbn. destruct (Get _ [_; _; token_of_name "md5"]) as [[| | | | |m|]|];
    try done.
  cbn. destruct (String.eqb _ _); [|done].
  cbn. by destruct (Get _ _) as [[]|].
Qed.

(** C2 (amended). [build_plugin_update_package] always returns, and it
    returns a package exactly when the nodes at [/data/plugin/plugin]
    and [/data/plugin/md5] are strings, the digest computed over the
    plugin string read as a C string (its bytes before the first NUL)
    equals the digest string read as a C string, and the node at
    [/data/plugin/version] is a string; the package then holds the
    three strings, each read as a C string.  A digest mismatch gives no
    package whether or not a version is present, and a matching digest
    without a version string gives no package.  For strings that hold
    no NUL byte the digest is computed over the plugin field as it
    stands and the package holds the three fields as they stand. *)
Theorem build_plugin_update_package_on_fields {dig : Digest} this :
  (∃ result, build_plugin_update_package this = Returns result)
  ∧ (∀ package,
       build_plugin_update_package this = Returns (Some package)
       ↔ ∃ plugin md5 version,
           node_at this "/data/plugin/plugin" = Some (kString plugin)
           ∧ node_at this "/data/plugin/md5" = Some (kString md5)
           ∧ md5sum (c_str plugin) = c_str md5
           ∧ node_at this "/data/plugin/version" = Some (kString version)
           ∧ package
             = PluginUpdatePackage.make
                 (c_str plugin) (c_str version) (c_str md5))
  ∧ (∀ plugin md5,
       node_at this "/data/plugin/plugin" = Some (kString plugin) →
       node_at this "/data/plugin/md5" = Some (kString md5) →
       md5sum (c_str plugin) ≠ c_str md5 →
       build_plugin_update_package this = Returns None)
  ∧ (∀ plugin md5,
       node_at this "/data/plugin/plugin" = Some (kString plugin) →
       node_at this "/data/plugin/md5" = Some (kString md5) →
       md5sum (c_str plugin) = c_str md5 →
       (∀ version,
          node_at this "/data/plugin/version" ≠ Some (kString version)) →
       build_plugin_update_package this = Returns None)
  ∧ (∀ plugin md5 version,
       node_at this "/data/plugin/plugin" = Some (kString plugin) →
       node_at this "/data/plugin/md5" = Some (kString md5) →
       node_at this "/data/plugin/version" = Some (kString version) →
       contains NUL plugin = false →
       contains NUL md5 = false →
       contains NUL version = false →
       build_plugin_update_package this
       = Returns (if String.eqb (md5sum plugin) md5
                  then Some (PluginUpdatePackage.make plugin version md5)
                  else None)).
Proof.
  rewrite build_plugin_update_package_nodes. split_and!.
  - eauto.
  - intros package. split.
    + destruct (node_at this "/data/plugin/plugin") as [[| | | | |p|]|];
        try done.
      destruct (node_at this "/data/plugin/md5") as [[| | | | |m|]|];
        try done.
      destruct (String.eqb_spec (md5sum (c_str p)) (c_str m)) as [Hsum|];
        [|done].
      destruct (node_at this "/data/plugin/version") as [[| | | | |v|]|];
        try done.
      intros [= <-]. by exists p, m, v.
    + intros (p & m & v & -> & -> & Hsum & -> & ->).
      by rewrite (proj2 (String.eqb_eq _ _) Hsum).
  - intros p m -> -> Hsum.
    by rewrite (proj2 (String.eqb_neq _ _) Hsum).
  - intros p m -> -> Hsum Hversion.
    rewrite (proj2 (String.eqb_eq _ _) Hsum).
    destruct (node_at this "/data/plugin/version") as [[| | | | |v|]|];
      try done.
    by destruct (Hversion v).
  - intros p m v -> -> -> Hp Hm Hv. by rewrite !c_str_id by done.
Qed.

(** C7 (amended). At a valid path, [fetch_int64] and [fetch_string]
    fail closed: at a node of the right type they return true with its
    value, at an absent path or a node of another type they return
    false and leave the target as it was, so the failure differs from
    the fetch of a present zero or empty string.  [fetch_string_array]
    and [fetch_object_keys] have no failure outcome: they return the
    empty vector at an absent or mistyped path as they do at an empty
    array or object. *)
Theorem scalar_fetchers_fail_closed this key :
  is_Some (Pointer key) →
  (∀ target : Z,
      (∃ z, node_at this key = Some (kNumber (Integer z))
            ∧ - 2 ^ 63 ≤ z < 2 ^ 63
            ∧ fetch_int64 this key target = Returns (true, z))
      ∨ ((∀ v, node_at this key = Some v → IsInt64 v = false)
         ∧ fetch_int64 this key target = Returns (false, target)))
  ∧ (∀ target : string,
      (∃ s, node_at this key = Some (kString s)
            ∧ fetch_string this key target = Returns (true, c_str s))
      ∨ ((∀ v, node_at this key = Some v → IsString v = false)
         ∧ fetch_string this key target = Returns (false, target)))
  ∧ ((∀ v, node_at this key = Some v → IsArray v = false) →
     fetch_string_array this key = Returns [])
  ∧ (node_at this key = Some (kArray []) →
     fetch_string_array this key = Returns [])
  ∧ ((∀ v, node_at this key = Some v → IsObject v = false) →
     fetch_object_keys this key = Returns [])
  ∧ (node_at this key = Some (kObject []) →
     fetch_object_keys this key = Returns []).
Proof.
  intros [tokens Hp]. rewrite (node_at_valid _ _ _ Hp).
  repeat split.
  - intros target. rewrite (fetch_int64_valid _ _ _ _ Hp).
    destruct (Get _ _) as [v|]; [|right; by split].
    destruct (IsInt64 v) eqn:Hv.
    + destruct (IsInt64_inv _ Hv) as (z & -> & Hz).
      left. by exists z.
    + right. split; [by intros ? [= <-]|].
      by destruct v as [| | | | | |[z|]].
  - intros target. rewrite (fetch_string_valid _ _ _ _ Hp).
    destruct (Get _ _) as [v|]; [|right; by split].
    destruct v; try (right; split; [by intros ? [= <-]|done]).
    left. eauto.
  - intros Hv. rewrite (fetch_string_array_valid _ _ _ Hp).
    destruct (Get _ _) as [v|]; [|done].
    specialize (Hv v eq_refl). by destruct v.
  - intros Hv. by rewrite (fetch_string_array_valid _ _ _ Hp), Hv.
  - intros Hv. rewrite (fetch_object_keys_valid _ _ _ Hp).
    destruct (Get _ _) as [v|]; [|done].
    specialize (Hv v eq_refl). by destruct v.
  - intros Hv. by rewrite (fetch_object_keys_valid _ _ _ Hp), Hv.
Qed.

(** C10 (amended). At a valid path that resolves to an array,
    [fetch_string_array] returns if and only if every element is a
    string; it then returns, in document order, each element's string
    as the C string [GetString] points to: the bytes before its first
    NUL, the whole string when it holds none. *)
Theorem fetch_string_array_defined_on_strings this key elements :
  is_Some (Pointer key) →
  node_at this key = Some (kArray elements) →
  ((∃ values, fetch_string_array this key = Returns values)
   ↔ Forall (λ v, IsString v = true) elements)
  ∧ (∀ strings,
       elements = kString <$> strings →
       fetch_string_array this key = Returns (c_str <$> strings))
  ∧ (∀ strings,
       elements = kString <$> strings →
       Forall (λ s, contains NUL s = false) strings →
       fetch_string_array this key = Returns strings).
Proof.
  intros [tokens Hp]. rewrite (node_at_valid _ _ _ Hp). intros Hnode.
  rewrite (fetch_string_array_valid _ _ _ Hp), Hnode.
  assert (∀ strings, elements = kString <$> strings →
            push_strings elements = Returns (c_str <$> strings)) as Hstr.
  { intros strings ->. apply push_strings_strings. }
  repeat split.
  - intros [values Hv]. by eapply push_strings_returns.
  - intros [strings ->]%all_strings. eauto.
  - done.
  - intros strings Hs Hfree. rewrite (Hstr _ Hs). f_equal.
    clear Hs Hstr. induction Hfree as [|s strings Hs _ IH]; [done|].
    cbn. by rewrite IH, c_str_id.
Qed.

End Fetchers.

(** C2 as stated fails on a plugin field that holds a NUL byte.  In
    [nul_plugin_offer] the three fields are strings and the digest
    field is the digest of the plugin field, and no package is built;
    in [nul_plugin_offer_prefix_digest] the digest field is not the
    digest of the plugin field, and a package is built, whose source
    code is not the plugin field. *)
Lemma build_plugin_update_package_cuts_at_nul :
  node_at (lib := sample_library) nul_plugin_offer "/data/plugin/plugin"
  = Some (kString source_with_nul)
  ∧ node_at (lib := sample_library) nul_plugin_offer "/data/plugin/md5"
    = Some (kString "fff")
  ∧ node_at (lib := sample_library) nul_plugin_offer "/data/plugin/version"
    = Some (kString "v1")
  ∧ md5sum (Digest := length_digest) source_with_nul = "fff"
  ∧ build_plugin_update_package (lib := sample_library) (dig := length_digest)
      nul_plugin_offer
    = Returns None
  ∧ node_at (lib := sample_library) nul_plugin_offer_prefix_digest
      "/data/plugin/plugin"
    = Some (kString source_with_nul)
  ∧ node_at (lib := sample_library) nul_plugin_offer_prefix_digest
      "/data/plugin/md5"
    = Some (kString "f")
  ∧ md5sum (Digest := length_digest) source_with_nul ≠ "f"
  ∧ build_plugin_update_package (lib := sample_library) (dig := length_digest)
      nul_plugin_offer_prefix_digest
    = Returns (Some (PluginUpdatePackage.make "a" "v1" "f"))
  ∧ source_with_nul ≠ "a".
Proof. split_and!; done. Qed.

Lemma build_plugin_update_package_on_fields_witness :
  build_plugin_update_package (lib := sample_library) (dig := length_digest)
    nul_plugin_offer_prefix_digest
  = Returns (Some (PluginUpdatePackage.make "a" "v1" "f"))
  ∧ build_plugin_update_package (lib := sample_library) (dig := sample_digest)
      plugin_offer_without_version
    = Returns None.
Proof.
  split.
  - apply (proj1 (proj2 (build_plugin_update_package_on_fields
                           (lib := sample_library) (dig := length_digest)
                           nul_plugin_offer_prefix_digest))).
    by exists source_with_nul, "f", "v1".
  - by apply (proj1 (proj2 (proj2 (proj2
                (build_plugin_update_package_on_fields
                   (lib := sample_library) (dig := sample_digest)
                   plugin_offer_without_version))))
                "print(1);" "print(1);").
Defined.

(** C6. The code at two paths that do not resolve to an object, one
    holding a number and one absent: [stringify_object] returns true
    and leaves the target as it was, where [fetch_string] on the same
    paths returns false. *)
Theorem stringify_object_true_off_object :
  stringify_object (lib := sample_library) number_at_a "/a" "old"
  = Returns (true, "old")
  ∧ stringify_object (lib := sample_library) number_at_a "/missing" "old"
    = Returns (true, "old")
  ∧ fetch_string (lib := sample_library) number_at_a "/a" "old"
    = Returns (false, "old")
  ∧ fetch_string (lib := sample_library) number_at_a "/missing" "old"
    = Returns (false, "old").
Proof. repeat split. Qed.


(** ** The hook whitelist *)

Section Hooks.
Context {lib : Library}.
Implicit Types (this : BackendResponse) (key key_item : string).
Implicit Types (members : list (string * Value)).
Implicit Types (hook_white_map : gmap string (list string)).

Lemma map_insert_lookup hook_white_map key_item white_types k :
  map_insert hook_white_map key_item white_types !! k
  = match hook_white_map !! k with
    | Some stored => Some stored
    | None => if decide (key_item = k) then Some white_types else None
    end.
Proof.
  unfold map_insert.
  destruct (hook_white_map !! key_item) as [stored|] eqn:Hkey.
  - destruct (hook_white_map !! k) eqn:Hk; [done|].
    case_decide; [congruence|done].
  - rewrite lookup_insert. case_decide; [by subst; rewrite Hkey|].
    by destruct (hook_white_map !! k).
Qed.

(** When every fetch of the loop returns, with [types key_item] for the
    member [key_item], the loop returns the map that holds the entries
    it started from and, for every further key, the types fetched for
    it. *)
Lemma insert_hooks_returns this key (types : string → list string) keys :
  (∀ key_item, key_item ∈ keys →
     fetch_string_array this
       (c_str key +:+ "/" +:+ string_replace key_item "/" "~1")
     = Returns (types key_item)) →
  ∀ hook_white_map,
    ∃ result,
      insert_hooks this key keys hook_white_map = Returns result
      ∧ ∀ k, result !! k
             = match hook_white_map !! k with
               | Some stored => Some stored
               | None => if decide (k ∈ keys) then Some (types k) else None
               end.
Proof.
  induction keys as [|key_item keys IH]; intros Hfetch hook_white_map.
  { exists hook_white_map. split; [done|]. intros k.
    destruct (hook_white_map !! k); [done|]. by rewrite decide_False by set_solver. }
  cbn [insert_hooks]. rewrite Hfetch by set_solver. cbn.
  destruct (IH (λ k Hk, Hfetch k ltac:(set_solver))
              (map_insert hook_white_map key_item (types key_item)))
    as (result & -> & Hresult).
  exists result. split; [done|]. intros k. rewrite Hresult, map_insert_lookup.
  destruct (hook_white_map !! k); [done|].
  destruct (decide (key_item = k)) as [->|Hne].
  - by rewrite decide_True by set_solver.
  - destruct (decide (k ∈ keys)).
    + by rewrite decide_True by set_solver.
    + by rewrite decide_False by set_solver.
Qed.

(** The fetch of the loop for a member name free of tildes and NULs
    reads the first member of that name. *)
Lemma fetch_string_array_child this key tokens members key_item :
  Pointer key = Some tokens →
  (∀ rest, c_str key ≠ String "#" rest) →
  Get (document this) tokens = Some (kObject members) →
  contains "~" key_item = false →
  contains NUL key_item = false →
  fetch_string_array this
    (c_str key +:+ "/" +:+ string_replace key_item "/" "~1")
  = match FindMember members key_item with
    | Some (_, (_, kArray elements)) => push_strings elements
    | _ => Returns []
    end.
Proof.
  intros Hp Hfragment Hobject Htilde Hnul.
  rewrite (fetch_string_array_valid _ _ _
             (Pointer_child _ _ _ Hp Hfragment Htilde Hnul)).
  rewrite Get_app, Hobject. cbn. rewrite Get_member.
  by destruct (FindMember _ _) as [[? [? v]]|].
Qed.

(** X18. Let the path be a valid pointer.  If it is not in URI
    fragment form and resolves to an object whose member names hold no
    tilde and no NUL byte and whose member arrays hold only strings,
    [build_hook_white_map] returns a map whose key set is exactly the
    set of member names, and a name whose first member is an array of
    strings is mapped to these strings, also when there are none.  If
    the path does not resolve to an object, the result is the empty
    map. *)
Theorem build_hook_white_map_keys this key :
  is_Some (Pointer key) →
  (∀ members,
     (∀ rest, c_str key ≠ String "#" rest) →
     node_at this key = Some (kObject members) →
     Forall (λ m, contains "~" m.1 = false
                  ∧ contains NUL m.1 = false
                  ∧ ∀ elements, m.2 = kArray elements →
                                Forall (λ v, IsString v = true) elements)
       members →
     ∃ hook_white_map,
       build_hook_white_map this key = Returns hook_white_map
       ∧ dom hook_white_map = list_to_set members.*1
       ∧ ∀ name i strings,
           FindMember members name
           = Some (i, (name, kArray (kString <$> strings))) →
           hook_white_map !! name = Some (c_str <$> strings))
  ∧ ((∀ members, node_at this key ≠ Some (kObject members)) →
     build_hook_white_map this key = Returns ∅).
Proof.
  intros [tokens Hp]. rewrite (node_at_valid _ _ _ Hp).
  unfold build_hook_white_map. rewrite (fetch_object_keys_valid _ _ _ Hp).
  split; last first.
  { intros Hnone. destruct (Get _ _) as [v|]; [|done].
    destruct v; try done. by edestruct Hnone. }
  intros members Hfragment Hobject Hmembers. rewrite Hobject. cbn.
  assert (map (λ m : string * Value, c_str m.1) members = members.*1) as ->.
  { clear Hobject. induction Hmembers as [|m members (_ & Hnul & _) _ IH]; [done|].
    cbn. by rewrite IH, c_str_id. }
  pose (types := λ name : string,
          match FindMember members name with
          | Some (_, (_, kArray elements)) =>
              match push_strings elements with
              | Returns values => values
              | Undefined => []
              end
          | _ => []
          end).
  destruct (insert_hooks_returns this key types members.*1) with (hook_white_map := (∅ : gmap string (list string)))
    as (result & -> & Hresult).
  { intros name Hname.
    destruct (FindMember_elem _ _ Hname) as (i & v & Hfind & Hin).
    rewrite Forall_forall in Hmembers.
    destruct (Hmembers _ Hin) as (Htilde & Hnul & Hstrings).
    rewrite (fetch_string_array_child _ _ _ _ name Hp Hfragment Hobject Htilde Hnul).
    unfold types. rewrite Hfind. destruct v; try done.
    destruct (all_strings _ (Hstrings _ eq_refl)) as [strings ->].
    by rewrite push_strings_strings. }
  exists result. split; [done|]. split.
  - apply set_eq. intros k. rewrite elem_of_dom, Hresult, lookup_empty.
    rewrite elem_of_list_to_set. case_decide; [by split; eauto|].
    split; [by intros [? ?]|done].
  - intros name i strings Hfind. rewrite Hresult, lookup_empty.
    assert (name ∈ members.*1) as Hname.
    { apply FindMember_Some in Hfind as (Hi & _ & _).
      apply list_elem_of_fmap. exists (name, kArray (kString <$> strings)).
      split; [done|]. by eapply list_elem_of_lookup_2. }
    rewrite decide_True by done. unfold types.
    by rewrite Hfind, push_strings_strings.
Qed.

End Hooks.

(** C4. The code on hook names that hold a tilde.  The name [a~0b] is
    appended unescaped, the pointer reads it as the name [a~b], which
    the object does not have, and the hook is mapped to an empty
    vector although the document stores one bypass type for it (found
    at the path that escapes the tilde); the name [a~b] makes an
    invalid pointer, and resolving it has no defined result.  A name
    with a solidus is escaped and keeps its array. *)
Theorem hook_name_with_tilde_loses_its_array :
  build_hook_white_map (lib := sample_library) tilde_zero_hook "/data"
  = Returns {[ "a~0b" := [] ]}
  ∧ fetch_string_array (lib := sample_library) tilde_zero_hook "/data/a~00b"
    = Returns ["x"]
  ∧ build_hook_white_map (lib := sample_library) tilde_hook "/data" = Undefined
  ∧ string_replace "sql/select" "/" "~1" = "sql~1select"
  ∧ build_hook_white_map (lib := sample_library) solidus_hook "/data"
    = Returns {[ "sql/select" := ["x"] ]}.
Proof. split_and!; vm_compute; reflexivity. Qed.

(** C5. The code on a whitelist whose array holds a number.  In
    [number_in_white] the path [/data] resolves to an object with the
    one member [hookA], and [fetch_object_keys] returns that name.  The
    loop of [fetch_string_array] reads the number through [GetString]
    without the type test that [fetch_string] makes before the same
    call (at the element's path [fetch_string] returns false), so the
    fetch has no result, and [build_hook_white_map] returns no map
    where a map with the key [hookA] is claimed. *)
Theorem build_hook_white_map_undefined_on_number :
  node_at (lib := sample_library) number_in_white "/data"
  = Some (kObject [("hookA", kArray [kNumber (Integer 1)])])
  ∧ fetch_object_keys (lib := sample_library) number_in_white "/data"
    = Returns ["hookA"]
  ∧ fetch_string (lib := sample_library) number_in_white "/data/hookA/0" "old"
    = Returns (false, "old")
  ∧ fetch_string_array (lib := sample_library) number_in_white "/data/hookA"
    = Undefined
  ∧ build_hook_white_map (lib := sample_library) number_in_white "/data"
    = Undefined
  ∧ ¬ ∃ hook_white_map,
        build_hook_white_map (lib := sample_library) number_in_white "/data"
        = Returns hook_white_map.
Proof. split_and!; [vm_compute; reflexivity..|]. by intros [? ?]. Qed.

(** The whitelist of the specification is mapped entry for entry. *)
Lemma build_hook_white_map_example :
  build_hook_white_map (lib := sample_library) hook_white "/data"
  = Returns {[ "hookA" := ["bypass1"; "bypass2"]; "hookB" := [] ]}.
Proof. vm_compute. reflexivity. Qed.

Lemma build_hook_white_map_keys_witness :
  is_Some (Pointer (lib := sample_library) "/data")
  ∧ ∃ hook_white_map,
      build_hook_white_map (lib := sample_library) hook_white "/data"
      = Returns hook_white_map
      ∧ dom hook_white_map = list_to_set ["hookA"; "hookB"]
      ∧ hook_white_map !! "hookB" = Some [].
Proof.
  assert (is_Some (Pointer (lib := sample_library) "/data")) as Hvalid
    by (eexists; reflexivity).
  split; [exact Hvalid|].
  destruct (proj1 (build_hook_white_map_keys (lib := sample_library)
                     hook_white "/data" Hvalid)
              [("hookA", kArray [kString "bypass1"; kString "bypass2"]);
               ("hookB", kArray [])]
              ltac:(done) eq_refl)
    as (hook_white_map & Hmap & Hdom & Hvalues).
  { repeat constructor; cbn; intros ? [= <-]; repeat constructor. }
  exists hook_white_map. split; [exact Hmap|]. split; [exact Hdom|].
  exact (Hvalues "hookB" 1%nat [] eq_refl).
Defined.

(** C9 as stated fails: erasing [/a/0] in [two_numbers_at_a] succeeds,
    and the fetch at [/a/0] that follows finds the number that stood at
    [/a/1]. *)
Lemma fetch_after_erase_finds_next_element :
  ∃ this',
    erase_value (lib := sample_library) two_numbers_at_a "/a/0"
    = Returns (true, this')
    ∧ fetch_int64 (lib := sample_library) this' "/a/0" 0 = Returns (true, 2).
Proof.
  exists (parsed 200 (kObject [("a", kArray [kNumber (Integer 2)])])).
  split; reflexivity.
Qed.

(** C7 as stated fails: in [empty_array_at_a] the path [/a] holds an
    empty array and the path [/b] is absent, and [fetch_string_array]
    returns the same empty vector for both. *)
Lemma fetch_string_array_absent_like_empty :
  node_at (lib := sample_library) empty_array_at_a "/a" = Some (kArray [])
  ∧ node_at (lib := sample_library) empty_array_at_a "/b" = None
  ∧ fetch_string_array (lib := sample_library) empty_array_at_a "/a"
    = Returns []
  ∧ fetch_string_array (lib := sample_library) empty_array_at_a "/b"
    = Returns [].
Proof. repeat split. Qed.

Lemma scalar_fetchers_fail_closed_witness :
  is_Some (Pointer (lib := sample_library) "/a")
  ∧ ((∀ v, node_at (lib := sample_library) number_at_a "/a" = Some v →
           IsString v = false)
     ∧ fetch_string (lib := sample_library) number_at_a "/a" "old"
       = Returns (false, "old")).
Proof.
  assert (is_Some (Pointer (lib := sample_library) "/a")) as Hvalid
    by (eexists; reflexivity).
  split; [exact Hvalid|].
  destruct (proj1 (proj2 (scalar_fetchers_fail_closed
                            (lib := sample_library) number_at_a "/a" Hvalid))
              "old") as [(s & Hs & _)|Hfail].
  - discriminate Hs.
  - exact Hfail.
Defined.

(** C10 as stated fails: the one element under [/a] in [nul_in_element]
    is a string of three bytes, and the vector returned holds a string
    of one byte. *)
Lemma fetch_string_array_cuts_at_nul :
  node_at (lib := sample_library) nul_in_element "/a"
  = Some (kArray [kString (String "x" (String NUL "y"))])
  ∧ fetch_string_array (lib := sample_library) nul_in_element "/a"
    = Returns ["x"]
  ∧ "x" ≠ String "x" (String NUL "y").
Proof. repeat split. done. Qed.

Lemma fetch_string_array_defined_on_strings_witness :
  is_Some (Pointer (lib := sample_library) "/a")
  ∧ node_at (lib := sample_library) two_strings_at_a "/a"
    = Some (kArray [kString "x"; kString "y"])
  ∧ fetch_string_array (lib := sample_library) two_strings_at_a "/a"
    = Returns ["x"; "y"].
Proof.
  assert (is_Some (Pointer (lib := sample_library) "/a")) as Hvalid
    by (eexists; reflexivity).
  split; [exact Hvalid|]. split; [reflexivity|].
  exact (proj1 (proj2 (fetch_string_array_defined_on_strings
                         (lib := sample_library) two_strings_at_a "/a"
                         [kString "x"; kString "y"] Hvalid eq_refl))
           ["x"; "y"] eq_refl).
Defined.

Section Verify.
Context {lib : Library}.
Implicit Types (this : BackendResponse).

Lemma http_code_ok_spec this :
  http_code_ok this = true ↔ 200 ≤ response_code this < 300.
Proof. unfold http_code_ok. rewrite andb_true_iff. lia. Qed.

Lemma verify_parse_error this (error_code : Z) :
  has_error this = true →
  verify this error_code
  = Returns (false, [ParseFailure error_code (c_str (error_msg this))]).
Proof. intros Herr. unfold verify. by rewrite Herr. Qed.

Lemma verify_http_code this (error_code : Z) :
  has_error this = false →
  http_code_ok this = false →
  verify this error_code
  = Returns (false, [TransportFailure error_code (response_code this)]).
Proof. intros Herr Hcode. unfold verify. by rewrite Herr, Hcode. Qed.

(** Past the first two gates [verify] is decided by the nodes at
    [/status] and [/description]. *)
Lemma verify_api this (error_code : Z) :
  has_error this = false →
  http_code_ok this = true →
  verify this error_code
  = Returns
      match node_at this "/status", node_at this "/description" with
      | Some (kNumber (Integer z) as v), Some (kString d) =>
          if IsInt64 v && negb (0 =? z)
          then (false, [ApiFailure error_code z (c_str d)])
          else (true, [])
      | _, _ => (true, [])
      end.
Proof.
  intros Herr Hcode. unfold verify, fetch_status, fetch_description.
  rewrite Herr, Hcode. cbn [negb].
  rewrite (fetch_int64_valid _ _ [token_of_name "status"]) by done.
  rewrite (fetch_string_valid _ _ [token_of_name "description"]) by done.
  rewrite (node_at_valid _ _ [token_of_name "status"]) by done.
  rewrite (node_at_valid _ _ [token_of_name "description"]) by done.
  cbn.
  destruct (Get _ [token_of_name "status"]) as [v|]; cbn.
  - destruct v as [| | | | | |[z|]]; cbn;
      try (by destruct (Get _ _) as [[]|]).
    destruct (_ && _) eqn:Hr; cbn;
      destruct (Get _ _) as [[]|]; cbn; try done.
    rewrite c_str_idemp. by destruct z.
  - by destruct (Get _ _) as [[]|].
Qed.

Lemma new_has_error (response_code : Z) (header body : string) :
  has_error (new response_code header body) = true
  ↔ ∃ code, Parse (c_str body) = inr code.
Proof.
  unfold new. destruct (Parse _) as [root|code]; cbn.
  - split; [done|]. by intros [? ?].
  - split; [eauto|done].
Qed.

(** The reader is handed the body as a C string: what follows a NUL
    byte never reaches it. *)
Lemma new_ignores_bytes_after_nul (response_code : Z)
    (header body rest : string) :
  contains NUL body = false →
  has_error (new response_code header (body +:+ String NUL rest))
  = has_error (new response_code header body)
  ∧ document (new response_code header (body +:+ String NUL rest))
    = document (new response_code header body).
Proof.
  intros Hbody. unfold new.
  replace (c_str (body +:+ String NUL rest)) with (c_str body);
    [by destruct (Parse (c_str body))|].
  clear -Hbody. induction body as [|c body IH]; [done|].
  simpl in Hbody |- *. destruct (Ascii.eqb c NUL); [done|]. by rewrite IH.
Qed.

(** C3 (amended). For every body whose text before the first NUL byte
    (the whole body when it holds none) the reader rejects, the
    constructed envelope has [has_error] true, and [verify] returns
    false after sending the parse-failure report with the reader's
    message, whatever the HTTP status code and before any API-level
    check. *)
Theorem malformed_body_is_parse_failure (response_code : Z)
    (header body : string) (code : ParseErrorCode) (error_code : Z) :
  Parse (c_str body) = inr code →
  has_error (new response_code header body) = true
  ∧ verify (new response_code header body) error_code
    = Returns (false,
               [ParseFailure error_code (c_str (GetParseError_En code))]).
Proof.
  intros Hparse.
  assert (has_error (new response_code header body) = true) as Herr
    by (apply new_has_error; eauto).
  split; [done|]. rewrite verify_parse_error by done.
  unfold new. rewrite Hparse. cbn. by rewrite c_str_idemp.
Qed.

(** C8. [http_code_ok] is true exactly on the status codes from 200
    to 299; an envelope without parse error whose status code is
    outside that range is refused by [verify] with the
    transport-failure report. *)
Theorem http_code_ok_range_and_transport_failure this (error_code : Z) :
  (http_code_ok this = true ↔ 200 ≤ response_code this < 300)
  ∧ (has_error this = false →
     ¬ (200 ≤ response_code this < 300) →
     verify this error_code
     = Returns (false, [TransportFailure error_code (response_code this)])).
Proof.
  split; [apply http_code_ok_spec|].
  intros Herr Hcode. apply verify_http_code; [done|].
  destruct (http_code_ok this) eqn:Hok; [|done].
  by apply http_code_ok_spec in Hok.
Qed.

(** C1 (amended). For every envelope without parse error whose status
    code is in [200,300): [verify] returns false, with the API-failure
    report, whenever [/status] holds a non-zero 64-bit integer and
    [/description] holds a string; and it returns true, with no
    report, when [/status] is not a 64-bit integer or [/description]
    is not a string, in particular when either is absent. *)
Theorem verify_api_failure_needs_description this (error_code : Z) :
  has_error this = false →
  http_code_ok this = true →
  (∀ (z : Z) (d : string),
      node_at this "/status" = Some (kNumber (Integer z)) →
      - 2 ^ 63 ≤ z < 2 ^ 63 →
      z ≠ 0 →
      node_at this "/description" = Some (kString d) →
      verify this error_code
      = Returns (false, [ApiFailure error_code z (c_str d)]))
  ∧ ((∀ v, node_at this "/status" = Some v → IsInt64 v = false)
     ∨ (∀ v, node_at this "/description" = Some v → IsString v = false) →
     verify this error_code = Returns (true, [])).
Proof.
  intros Herr Hcode. rewrite (verify_api _ _ Herr Hcode). split.
  - intros z d -> Hz Hnz ->. cbn -[Z.eqb Z.leb Z.ltb Z.pow].
    replace ((- 2 ^ 63 <=? z) && (z <? 2 ^ 63)) with true
      by (symmetry; apply andb_true_iff; lia).
    destruct (Z.eqb_spec 0 z); [lia|done].
  - intros [Hs|Hd].
    + destruct (node_at this "/status") as [v|]; [|done].
      specialize (Hs v eq_refl). destruct v as [| | | | | |[z|]]; try done.
      rewrite Hs. cbn. by destruct (node_at _ _) as [[]|].
    + destruct (node_at this "/description") as [v|].
      * specialize (Hd v eq_refl). destruct v; try done;
          by destruct (node_at _ _) as [[| | | | | |[]]|].
      * by destruct (node_at _ _) as [[| | | | | |[]]|].
Qed.

End Verify.

Lemma malformed_body_is_parse_failure_witness :
  Parse (Library := sample_library) (c_str "garbage")
  = inr kParseErrorValueInvalid
  ∧ has_error (new (lib := sample_library) 500 EmptyString "garbage") = true
  ∧ verify (lib := sample_library)
      (new (lib := sample_library) 500 EmptyString "garbage") 7
    = Returns (false, [ParseFailure 7 "Invalid value."]).
Proof.
  split; [reflexivity|].
  exact (malformed_body_is_parse_failure (lib := sample_library)
           500 EmptyString "garbage" kParseErrorValueInvalid 7 eq_refl).
Defined.

(** C3 as stated fails: [object_then_nul] holds a raw NUL byte, so it
    is not a JSON text, yet the reader is handed only what precedes the
    NUL and the envelope has no parse error and passes [verify]. *)
Lemma body_with_nul_is_accepted :
  contains NUL object_then_nul = true
  ∧ has_error (new (lib := sample_library) 200 EmptyString object_then_nul)
    = false
  ∧ verify (lib := sample_library)
      (new (lib := sample_library) 200 EmptyString object_then_nul) 7
    = Returns (true, []).
Proof. split_and!; reflexivity. Qed.

Lemma http_code_ok_range_and_transport_failure_witness :
  has_error (parsed 404 (kObject [])) = false
  ∧ ¬ (200 ≤ response_code (parsed 404 (kObject [])) < 300)
  ∧ verify (lib := sample_library) (parsed 404 (kObject [])) 7
    = Returns (false, [TransportFailure 7 404]).
Proof.
  split; [reflexivity|]. split; [cbn; lia|].
  apply (proj2 (http_code_ok_range_and_transport_failure
                  (lib := sample_library) (parsed 404 (kObject [])) 7));
    [reflexivity | cbn; lia].
Defined.

(** C1 as stated fails: [status_only] has no parse error, status code
    200, and a present non-zero [/status], yet [verify] accepts it,
    because no [/description] comes with the status. *)
Lemma verify_accepts_status_without_description :
  has_error status_only = false
  ∧ http_code_ok status_only = true
  ∧ fetch_status (lib := sample_library) status_only 0 = Returns (true, 1)
  ∧ verify (lib := sample_library) status_only 7 = Returns (true, []).
Proof. repeat split. Qed.

Lemma verify_api_failure_needs_description_witness :
  has_error api_error = false
  ∧ http_code_ok api_error = true
  ∧ verify (lib := sample_library) api_error 7
    = Returns (false, [ApiFailure 7 1 "bad"]).
Proof.
  split; [reflexivity|]. split; [reflexivity|].
  apply (proj1 (verify_api_failure_needs_description
                  (lib := sample_library) api_error 7 eq_refl eq_refl)
           1 "bad"); [reflexivity | lia | lia | reflexivity].
Defined.


(** * Further properties of the envelope *)

(** ** Erasure against resolution *)

Section Erasure.
Implicit Types (root v : Value) (t : Token) (tokens : list Token).
Implicit Types (members : list (string * Value)) (elements : list Value).

Lemma FindMember_insert_other members name i n v v' :
  members !! i = Some (n, v) →
  n ≠ name →
  FindMember (<[i := (n, v')]> members) name = FindMember members name.
Proof.
  unfold FindMember. revert i.
  induction members as [|m members IH]; intros [|i] Hi Hn; try done.
  - injection Hi as ->. csimpl. by rewrite !decide_False by done.
  - csimpl. case_decide; [done|]. by rewrite (IH i Hi Hn).
Qed.

Lemma FindMember_delete_other members name i m :
  members !! i = Some m →
  m.1 ≠ name →
  snd <$> FindMember (delete i members) name
  = snd <$> FindMember members name.
Proof.
  unfold FindMember. revert i.
  induction members as [|m' members IH]; intros [|i] Hi Hn; try done.
  - injection Hi as ->. csimpl. rewrite decide_False by done.
    by destruct (list_find _ members) as [[? ?]|].
  - csimpl. case_decide; [done|].
    specialize (IH i Hi Hn).
    destruct (list_find _ (delete i members)) as [[? ?]|],
             (list_find _ members) as [[? ?]|]; cbn in *; congruence.
Qed.

Lemma Get_object members t tokens :
  Get (kObject members) (t :: tokens)
  = (snd <$> FindMember members (name t)) ≫= λ m, Get m.2 tokens.
Proof. rewrite Get_cons. by destruct (FindMember _ _) as [[? [? ?]]|]. Qed.

(** Erasing below one member of an object leaves what the members of
    other names resolve to. *)
Lemma Erase_frame prefix : ∀ root t ts t' ts' members erased root',
  Get root prefix = Some (kObject members) →
  name t ≠ name t' →
  Erase root (prefix ++ t :: ts) = (erased, root') →
  Get root' (prefix ++ t' :: ts') = Get root (prefix ++ t' :: ts').
Proof.
  induction prefix as [|p prefix IH];
    intros root t ts t' ts' members erased root' Hparent Hne Herase.
  - injection Hparent as ->. cbn [app] in *. destruct ts as [|t2 ts].
    + rewrite Erase_last in Herase.
      destruct (FindMember members (name t)) as [[i m]|] eqn:Hfind;
        injection Herase as <- <-; [|done].
      apply FindMember_Some in Hfind as (Hi & Hm & _).
      rewrite !Get_object, (FindMember_delete_other _ _ _ _ Hi); [done|].
      by rewrite Hm.
    + rewrite Erase_cons in Herase.
      destruct (FindMember members (name t)) as [[i [n v]]|] eqn:Hfind;
        [|by injection Herase as <- <-].
      destruct (Erase v (t2 :: ts)) as [e v'].
      injection Herase as <- <-.
      apply FindMember_Some in Hfind as (Hi & Hm & _). cbn in Hm.
      rewrite !Get_object, (FindMember_insert_other _ _ _ _ _ _ Hi); [done|].
      by rewrite Hm.
  - rewrite <-!app_comm_cons in *.
    destruct (prefix ++ t :: ts) as [|t2 rest] eqn:Hrest;
      [by destruct prefix|].
    rewrite Erase_cons in Herase. rewrite <-Hrest in Herase. clear Hrest.
    rewrite Get_cons in Hparent. rewrite !Get_cons.
    destruct root as [| | |members0|elements| |]; try done.
    + destruct (FindMember members0 (name p)) as [[i [n v]]|] eqn:Hfind;
        [|done].
      destruct (Erase v (prefix ++ t :: ts)) as [e v'] eqn:Hv.
      injection Herase as <- <-.
      rewrite (FindMember_insert _ _ _ _ _ v' Hfind). eauto.
    + destruct (_ || _) eqn:Hrange; [done|].
      destruct (elements !! _) as [v|] eqn:Hv; [|done].
      destruct (Erase v (prefix ++ t :: ts)) as [e v'] eqn:Hv'.
      injection Herase as <- <-.
      rewrite length_insert, Hrange.
      rewrite list_lookup_insert_eq by by eapply lookup_lt_Some. eauto.
Qed.

(** Tokens read from a pointer in string form carry the index of an
    unsigned [SizeType]. *)
Lemma to_SizeType_nonneg digits : ∀ n m,
  0 ≤ n → to_SizeType n digits = Some m → 0 ≤ m.
Proof.
  induction digits as [|c digits IH]; intros n m Hn; cbn -[Z.modulo].
  - by intros [= <-].
  - destruct (_ <? _); [done|]. apply IH.
    apply Z.mod_pos_bound. by compute.
Qed.

Lemma token_index_nonneg name : 0 ≤ token_index name.
Proof.
  unfold token_index. destruct name as [|c name]; [by compute|].
  destruct (_ && _); [|by compute].
  destruct (to_SizeType 0 _) as [m|] eqn:Hm; [|by compute].
  by eapply to_SizeType_nonneg.
Qed.

(** An erasure succeeds exactly on the tokens, at least one, that
    resolve. *)
Lemma Erase_true_iff tokens : ∀ root,
  Forall (λ t, 0 ≤ index t) tokens →
  (Erase root tokens).1 = true ↔ tokens ≠ [] ∧ is_Some (Get root tokens).
Proof.
  induction tokens as [|t [|t' tokens] IH]; intros root Hindex.
  - cbn. naive_solver.
  - rewrite Erase_last, Get_cons. apply Forall_cons in Hindex as [Ht _].
    destruct root as [| | |members|elements| |];
      try (cbn; split; [done|by intros [_ [? ?]]]).
    + destruct (FindMember _ _) as [[i [n v]]|]; cbn.
      * split; [by eauto|done].
      * split; [done|by intros [_ [? ?]]].
    + destruct (_ || _) eqn:Hrange; cbn.
      * split; [done|by intros [_ [? ?]]].
      * apply orb_false_iff in Hrange as [_ Hlen%Z.leb_gt].
        destruct (lookup_lt_is_Some_2 elements (Z.to_nat (index t)))
          as [v ->]; [lia|]. split; [by eauto|done].
  - rewrite Erase_cons, Get_cons. apply Forall_cons in Hindex as [_ Hindex].
    destruct root as [| | |members|elements| |];
      try (cbn; split; [done|by intros [_ [? ?]]]).
    + destruct (FindMember _ _) as [[i [n v]]|]; cbn.
      * specialize (IH v Hindex).
        destruct (Erase v (t' :: tokens)) as [e v']. cbn in *.
        rewrite IH. naive_solver.
      * split; [done|by intros [_ [? ?]]].
    + destruct (_ || _); cbn; [split; [done|by intros [_ [? ?]]]|].
      destruct (elements !! _) as [v|]; cbn.
      * specialize (IH v Hindex).
        destruct (Erase v (t' :: tokens)) as [e v']. cbn in *.
        rewrite IH. naive_solver.
      * split; [done|by intros [_ [? ?]]].
Qed.

(** Where the last token finds nothing to erase, the erasure fails. *)
Lemma Erase_unresolved tokens : ∀ root last parent,
  Get root tokens = Some parent →
  (Erase parent [last]).1 = false →
  (Erase root (tokens ++ [last])).1 = false.
Proof.
  induction tokens as [|t tokens IH]; intros root last parent Hparent Hlast.
  - by injection Hparent as ->.
  - rewrite <-app_comm_cons.
    destruct (tokens ++ [last]) as [|t' rest] eqn:Hrest;
      [by destruct tokens|].
    rewrite Erase_cons. rewrite <-Hrest. clear Hrest.
    rewrite Get_cons in Hparent.
    destruct root as [| | |members|elements| |]; try done.
    + destruct (FindMember _ _) as [[i [n v]]|]; [|done].
      specialize (IH v last parent Hparent Hlast).
      by destruct (Erase v (tokens ++ [last])).
    + destruct (_ || _); [done|].
      destruct (elements !! _) as [v|]; [|done].
      specialize (IH v last parent Hparent Hlast).
      by destruct (Erase v (tokens ++ [last])).
Qed.

End Erasure.

Section ErasureOfFields.
Context {lib : Library}.
Implicit Types (this : BackendResponse) (key : string).

Lemma Pointer_index_nonneg key tokens :
  Pointer key = Some tokens →
  (∀ rest, c_str key ≠ String "#" rest) →
  Forall (λ t, 0 ≤ index t) tokens.
Proof.
  unfold Pointer. intros Hp Hfragment.
  destruct (c_str key) as [|c rest]; [by injection Hp as <-|].
  destruct (Ascii.eqb_spec c "#") as [->|_]; [by destruct (Hfragment rest)|].
  destruct (Ascii.eqb c "/"); [|done].
  destruct (parse_names rest) as [names|]; [|done]. injection Hp as <-.
  apply Forall_fmap, Forall_forall. intros name _. apply token_index_nonneg.
Qed.

Lemma erase_value_valid this key tokens :
  Pointer key = Some tokens →
  erase_value this key
  = Returns ((Erase (document this) tokens).1,
             {| parse_error := parse_error this;
                response_code := response_code this;
                header_string := header_string this;
                response_string := response_string this;
                error_msg := error_msg this;
                document := (Erase (document this) tokens).2 |}).
Proof.
  intros Hp. unfold erase_value. rewrite Hp. cbn.
  by destruct (Erase _ _).
Qed.

(** X1. An [erase_value] that returns false has changed nothing: the
    envelope after the call is the envelope before it. *)
Theorem erase_value_false_keeps_envelope this key this' :
  erase_value this key = Returns (false, this') → this' = this.
Proof.
  destruct (Pointer key) as [tokens|] eqn:Hp;
    [|by unfold erase_value; rewrite Hp].
  rewrite (erase_value_valid _ _ _ Hp).
  destruct (Erase (document this) tokens) as [erased root] eqn:Herase.
  intros [= -> <-]. apply Erase_failed in Herase as ->. by destruct this.
Qed.

(** X2. At a pointer in string form [erase_value] always returns, and
    it returns true exactly when the pointer has at least one token and
    resolves to a node: it succeeds on the paths at which a fetch finds
    something, the root excepted. *)
Theorem erase_value_true_iff_resolves this key tokens :
  Pointer key = Some tokens →
  (∀ rest, c_str key ≠ String "#" rest) →
  ∃ erased this',
    erase_value this key = Returns (erased, this')
    ∧ (erased = true ↔ tokens ≠ [] ∧ is_Some (node_at this key)).
Proof.
  intros Hp Hfragment. rewrite (erase_value_valid _ _ _ Hp).
  eexists _, _. split; [done|]. rewrite (node_at_valid _ _ _ Hp).
  apply Erase_true_iff. by eapply Pointer_index_nonneg.
Qed.

(** X3. Erasing under one member of an object leaves its other members
    as they were: when two paths share their first tokens, these
    resolve to an object, and the next token names different members,
    an [erase_value] at the first path changes nothing that a fetch at
    the second path returns. *)
Theorem erase_value_keeps_other_members this key key' prefix t ts t' ts'
    members erased this' :
  Pointer key = Some (prefix ++ t :: ts) →
  Pointer key' = Some (prefix ++ t' :: ts') →
  Get (document this) prefix = Some (kObject members) →
  name t ≠ name t' →
  erase_value this key = Returns (erased, this') →
  node_at this' key' = node_at this key'
  ∧ (∀ target : Z, fetch_int64 this' key' target = fetch_int64 this key' target)
  ∧ (∀ target : string,
       fetch_string this' key' target = fetch_string this key' target)
  ∧ (∀ target : string,
       stringify_object this' key' target = stringify_object this key' target)
  ∧ fetch_object_keys this' key' = fetch_object_keys this key'
  ∧ fetch_string_array this' key' = fetch_string_array this key'.
Proof.
  intros Hp Hp' Hparent Hne. rewrite (erase_value_valid _ _ _ Hp).
  destruct (Erase (document this) _) as [e root] eqn:Herase.
  intros [= -> <-].
  pose proof (Erase_frame _ _ _ _ t' ts' _ _ _ Hparent Hne Herase) as Hframe.
  rewrite !(node_at_valid _ _ _ Hp'). split; [done|].
  split_and!; intros;
    rewrite ?(fetch_int64_valid _ _ _ _ Hp'), ?(fetch_string_valid _ _ _ _ Hp'),
      ?(stringify_object_valid _ _ _ _ Hp'), ?(fetch_object_keys_valid _ _ _ Hp'),
      ?(fetch_string_array_valid _ _ _ Hp'); cbn; by rewrite Hframe.
Qed.

(** X4. Erasing twice: after [erase_value] has succeeded at a path whose
    last token names a member of an object with pairwise distinct
    member names, a second [erase_value] at that path returns false and
    leaves the envelope as the first call left it. *)
Theorem erase_value_twice this key tokens last members this' :
  Pointer key = Some (tokens ++ [last]) →
  Get (document this) tokens = Some (kObject members) →
  NoDup members.*1 →
  erase_value this key = Returns (true, this') →
  erase_value this' key = Returns (false, this').
Proof.
  intros Hp Hparent Hdup. rewrite !(erase_value_valid _ _ _ Hp).
  destruct (Erase (document this) _) as [e root] eqn:Herase.
  intros [= -> <-]. cbn.
  destruct (Erase_parent _ _ _ _ Herase)
    as (parent & parent' & Hget & Hlast & Hget').
  rewrite Hparent in Hget. injection Hget as <-.
  assert ((Erase parent' [last]).1 = false) as Hgone.
  { rewrite Erase_last in Hlast.
    destruct (FindMember members (name last)) as [[i m]|] eqn:Hfind; [|done].
    injection Hlast as <-. rewrite Erase_last.
    by rewrite (FindMember_delete _ _ _ _ Hdup Hfind). }
  pose proof (Erase_unresolved _ _ _ _ Hget' Hgone) as Hfalse.
  destruct (Erase root (tokens ++ [last])) as [e' root'] eqn:Hsecond.
  cbn in Hfalse. subst e'. by apply Erase_failed in Hsecond as ->.
Qed.

End ErasureOfFields.

Lemma erase_value_false_keeps_envelope_witness :
  erase_value (lib := sample_library) api_error "/missing"
  = Returns (false, api_error)
  ∧ api_error = api_error.
Proof.
  split; [reflexivity|].
  exact (erase_value_false_keeps_envelope (lib := sample_library)
           api_error "/missing" api_error eq_refl).
Defined.

Lemma erase_value_true_iff_resolves_witness :
  ∃ erased this',
    erase_value (lib := sample_library) api_error "/description"
    = Returns (erased, this')
    ∧ (erased = true
       ↔ [token_of_name "description"] ≠ []
         ∧ is_Some (node_at (lib := sample_library) api_error "/description")).
Proof.
  exact (erase_value_true_iff_resolves (lib := sample_library)
           api_error "/description" [token_of_name "description"]
           eq_refl ltac:(done)).
Defined.

Lemma erase_value_keeps_other_members_witness :
  ∃ this',
    erase_value (lib := sample_library) api_error "/description"
    = Returns (true, this')
    ∧ fetch_int64 (lib := sample_library) this' "/status" 0
      = fetch_int64 (lib := sample_library) api_error "/status" 0.
Proof.
  eexists. split; [reflexivity|].
  exact (proj1 (proj2 (erase_value_keeps_other_members (lib := sample_library)
                         api_error "/description" "/status" []
                         (token_of_name "description") []
                         (token_of_name "status") []
                         _ true _ eq_refl eq_refl eq_refl ltac:(done) eq_refl))
           0).
Defined.

Lemma erase_value_twice_witness :
  ∃ this',
    erase_value (lib := sample_library) api_error "/description"
    = Returns (true, this')
    ∧ erase_value (lib := sample_library) this' "/description"
      = Returns (false, this').
Proof.
  eexists. split; [reflexivity|].
  refine (erase_value_twice (lib := sample_library) api_error "/description"
            [] (token_of_name "description") _ _ eq_refl eq_refl _ eq_refl).
  repeat constructor; set_solver.
Defined.

(** ** Calls in succession *)

Section Succession.
Context {lib : Library}.
Implicit Types (this : BackendResponse) (key : string).
Implicit Types (root v : Value) (tokens : list Token).
Implicit Types (members : list (string * Value)) (elements : list Value).

(** Each call returns what the member function returns, next to the
    envelope it leaves. *)
Lemma call_fetch_int64_run key (target : Z) this :
  call_fetch_int64 key target this
  = fetch_int64 this key target ≫= λ result, Returns (result, this).
Proof.
  unfold call_fetch_int64, fetch_int64. run_call.
  destruct (Pointer key); [|reflexivity].
  destruct (Get _ _) as [v|]; [|reflexivity].
  destruct (IsInt64 v); [|reflexivity]. by destruct (GetInt64 v).
Qed.

Lemma call_fetch_string_run key (target : string) this :
  call_fetch_string key target this
  = fetch_string this key target ≫= λ result, Returns (result, this).
Proof.
  unfold call_fetch_string, fetch_string. run_call.
  destruct (Pointer key); [|reflexivity].
  destruct (Get _ _) as [v|]; [|reflexivity].
  destruct (IsString v); [|reflexivity]. by destruct (GetString v).
Qed.

Lemma call_stringify_object_run key (target : string) this :
  call_stringify_object key target this
  = stringify_object this key target ≫= λ result, Returns (result, this).
Proof.
  unfold call_stringify_object, stringify_object. run_call.
  destruct (Pointer key); [|reflexivity].
  destruct (Get _ _) as [v|]; [|reflexivity]. by destruct (IsObject v).
Qed.

Lemma call_fetch_object_keys_run key this :
  call_fetch_object_keys key this
  = fetch_object_keys this key ≫= λ result, Returns (result, this).
Proof.
  unfold call_fetch_object_keys, fetch_object_keys. run_call.
  destruct (Pointer key); [|reflexivity].
  by destruct (Get _ _) as [[]|].
Qed.

Lemma call_fetch_string_array_run key this :
  call_fetch_string_array key this
  = fetch_string_array this key ≫= λ result, Returns (result, this).
Proof.
  unfold call_fetch_string_array, fetch_string_array. run_call.
  destruct (Pointer key); [|reflexivity].
  destruct (Get _ _) as [[]|]; reflexivity.
Qed.

Lemma call_erase_value_run key this :
  call_erase_value key this = erase_value this key.
Proof.
  unfold call_erase_value, erase_value. run_call.
  destruct (Pointer key); [|reflexivity]. by destruct (Erase _ _).
Qed.

(** After the first member of a name is deleted, the name finds the
    next member that has it. *)
Lemma FindMember_delete_first members name i m :
  FindMember members name = Some (i, m) →
  snd <$> FindMember (delete i members) name
  = snd <$> FindMember (drop (S i) members) name.
Proof.
  unfold FindMember. revert i.
  induction members as [|m' members IH]; intros [|i]; try done.
  csimpl. case_decide; [done|].
  destruct (list_find _ members) as [[j y]|] eqn:Hfind; [|done].
  intros [= -> ->]. specialize (IH i eq_refl).
  destruct (list_find _ (delete i members)) as [[? ?]|],
           (list_find _ (drop (S i) members)) as [[? ?]|];
    cbn in *; congruence.
Qed.

Lemma FindMember_None members name :
  FindMember members name = None ↔ name ∉ members.*1.
Proof.
  unfold FindMember. rewrite list_find_None, Forall_forall. split.
  - intros Hnone ([n v] & -> & Hin)%list_elem_of_fmap. by eapply Hnone.
  - intros Hnone m Hin Hname. apply Hnone, list_elem_of_fmap. by exists m.
Qed.

(** What the erased path resolves to afterwards: the node that has moved
    into the erased place. *)
Lemma Erase_next tokens root (last : Token) root' :
  Erase root (tokens ++ [last]) = (true, root') →
  ∃ parent,
    Get root tokens = Some parent
    ∧ match parent with
      | kObject members =>
          ∃ i m,
            FindMember members (name last) = Some (i, m)
            ∧ Get root' (tokens ++ [last])
              = (λ found, found.2.2)
                <$> FindMember (drop (S i) members) (name last)
      | kArray elements =>
          index last < Z.of_nat (length elements)
          ∧ Get root' (tokens ++ [last])
            = elements !! S (Z.to_nat (index last))
      | _ => False
      end.
Proof.
  intros (parent & parent' & Hget & Hlast & Hget')%Erase_parent.
  exists parent. split; [done|]. rewrite Get_app, Hget'. cbn.
  rewrite Erase_last in Hlast.
  destruct parent as [| | |members|elements| |]; try done.
  - destruct (FindMember members (name last)) as [[i m]|] eqn:Hfind; [|done].
    injection Hlast as <-. exists i, m. split; [done|].
    rewrite Get_object, (FindMember_delete_first _ _ _ _ Hfind).
    by destruct (FindMember (drop _ _) _) as [[? [? ?]]|].
  - destruct (_ || _) eqn:Hrange; [done|]. injection Hlast as <-.
    apply orb_false_iff in Hrange as [Hvalid Hlen%Z.leb_gt].
    split; [done|]. rewrite Get_cons, Hvalid. cbn [orb].
    remember (Z.to_nat (index last)) as k eqn:Hindex.
    destruct (decide (k < length elements)%nat) as [Hk|Hk].
    + pose proof (length_delete elements k (lookup_lt_is_Some_2 _ _ Hk))
        as Hdel.
      destruct (Z.leb_spec (Z.of_nat (length (delete k elements)))
                  (index last)).
      * symmetry. apply lookup_ge_None. lia.
      * rewrite list_lookup_delete, decide_False by lia.
        by destruct (elements !! S k).
    + assert (elements = []) as ->
        by (destruct elements; [done|cbn in *; lia]).
      destruct k; cbn; by destruct (_ <=? _).
Qed.

(** C9 (amended).  The fetchers leave the envelope they are called on,
    and two calls in a row return the same: the second call, run on the
    envelope (and, for [fetch_int64], [fetch_string] and
    [stringify_object], on the target) the first call left, returns
    what the first returned.  After [erase_value] has succeeded at a
    path, the path resolves to the node that has moved into the erased
    place: in an object the next member of the same name, in an array
    the next element.  Where there is none, [fetch_int64] and
    [fetch_string] at that path return false and leave the target,
    [fetch_object_keys] and [fetch_string_array] return the empty
    vector, and [stringify_object] leaves the target; there is none
    exactly when no later member of the object has the erased name, or
    the erased element was the last of the array. *)
Theorem fetch_twice_and_after_erase this key :
  (∀ (target : Z) flag value this1,
     call_fetch_int64 key target this = Returns ((flag, value), this1) →
     this1 = this
     ∧ call_fetch_int64 key value this1 = Returns ((flag, value), this1))
  ∧ (∀ (target : string) flag value this1,
       call_fetch_string key target this = Returns ((flag, value), this1) →
       this1 = this
       ∧ call_fetch_string key value this1 = Returns ((flag, value), this1))
  ∧ (∀ (target : string) flag value this1,
       call_stringify_object key target this
       = Returns ((flag, value), this1) →
       this1 = this
       ∧ call_stringify_object key value this1
         = Returns ((flag, value), this1))
  ∧ (∀ keys this1,
       call_fetch_object_keys key this = Returns (keys, this1) →
       this1 = this
       ∧ call_fetch_object_keys key this1 = Returns (keys, this1))
  ∧ (∀ values this1,
       call_fetch_string_array key this = Returns (values, this1) →
       this1 = this
       ∧ call_fetch_string_array key this1 = Returns (values, this1))
  ∧ (∀ this1,
       call_erase_value key this = Returns (true, this1) →
       ∃ tokens last parent,
         Pointer key = Some (tokens ++ [last])
         ∧ Get (document this) tokens = Some parent
         ∧ match parent with
           | kObject members =>
               ∃ i m,
                 FindMember members (name last) = Some (i, m)
                 ∧ node_at this1 key
                   = (λ found, found.2.2)
                     <$> FindMember (drop (S i) members) (name last)
                 ∧ (node_at this1 key = None
                    ↔ name last ∉ (drop (S i) members).*1)
           | kArray elements =>
               index last < Z.of_nat (length elements)
               ∧ node_at this1 key = elements !! S (Z.to_nat (index last))
               ∧ (node_at this1 key = None
                  ↔ (length elements ≤ S (Z.to_nat (index last)))%nat)
           | _ => False
           end
         ∧ (node_at this1 key = None →
            (∀ target : Z,
               call_fetch_int64 key target this1
               = Returns ((false, target), this1))
            ∧ (∀ target : string,
                 call_fetch_string key target this1
                 = Returns ((false, target), this1))
            ∧ (∀ target : string,
                 call_stringify_object key target this1
                 = Returns ((true, target), this1))
            ∧ call_fetch_object_keys key this1 = Returns ([], this1)
            ∧ call_fetch_string_array key this1 = Returns ([], this1))).
Proof.
  split_and!.
  - intros target flag value this1. rewrite !call_fetch_int64_run.
    destruct (fetch_int64 this key target) as [[flag' value']|] eqn:Hfirst;
      [|done].
    intros [= -> -> <-]. split; [done|].
    revert Hfirst. destruct (Pointer key) as [tokens|] eqn:Hp;
      [|by unfold fetch_int64; rewrite Hp].
    rewrite !(fetch_int64_valid _ _ _ _ Hp). cbn.
    destruct (Get _ _) as [[| | | | | |[z|]]|]; try by intros [= <- <-].
    by destruct (IsInt64 _); intros [= <- <-].
  - intros target flag value this1. rewrite !call_fetch_string_run.
    destruct (fetch_string this key target) as [[flag' value']|] eqn:Hfirst;
      [|done].
    intros [= -> -> <-]. split; [done|].
    revert Hfirst. destruct (Pointer key) as [tokens|] eqn:Hp;
      [|by unfold fetch_string; rewrite Hp].
    rewrite !(fetch_string_valid _ _ _ _ Hp). cbn.
    by destruct (Get _ _) as [[]|]; intros [= <- <-].
  - intros target flag value this1. rewrite !call_stringify_object_run.
    destruct (stringify_object this key target) as [[flag' value']|]
      eqn:Hfirst; [|done].
    intros [= -> -> <-]. split; [done|].
    revert Hfirst. destruct (Pointer key) as [tokens|] eqn:Hp;
      [|by unfold stringify_object; rewrite Hp].
    rewrite !(stringify_object_valid _ _ _ _ Hp). cbn.
    by destruct (Get _ _) as [[]|]; intros [= <- <-].
  - intros keys this1. rewrite call_fetch_object_keys_run.
    destruct (fetch_object_keys this key) as [keys'|] eqn:Hfirst; [|done].
    intros [= -> <-]. split; [done|].
    by rewrite call_fetch_object_keys_run, Hfirst.
  - intros values this1. rewrite call_fetch_string_array_run.
    destruct (fetch_string_array this key) as [values'|] eqn:Hfirst; [|done].
    intros [= -> <-]. split; [done|].
    by rewrite call_fetch_string_array_run, Hfirst.
  - intros this1. rewrite call_erase_value_run.
    destruct (Pointer key) as [tokens|] eqn:Hp;
      [|by unfold erase_value; rewrite Hp].
    rewrite (erase_value_valid _ _ _ Hp).
    destruct (Erase (document this) tokens) as [erased root] eqn:Herase.
    intros [= -> <-].
    destruct tokens as [|last tokens _] using rev_ind; [done|].
    destruct (Erase_next _ _ _ _ Herase) as (parent & Hparent & Hnext).
    exists tokens, last, parent. rewrite (node_at_valid _ _ _ Hp).
    cbn [document]. split_and!; [done..| |].
    { destruct parent as [| | |members|elements| |]; try done.
      - destruct Hnext as (i & m & Hfind & ->). exists i, m.
        split_and!; [done..|]. by rewrite fmap_None, FindMember_None.
      - destruct Hnext as (Hlen & ->). split_and!; [done..|].
        apply lookup_ge_None. }
    intros Hnone.
    rewrite call_fetch_object_keys_run, call_fetch_string_array_run.
    rewrite (fetch_object_keys_valid _ _ _ Hp), (fetch_string_array_valid _ _ _ Hp).
    cbn. rewrite Hnone. split_and!; [| | |done..].
    + intros target.
      by rewrite call_fetch_int64_run, (fetch_int64_valid _ _ _ _ Hp);
        cbn; rewrite Hnone.
    + intros target.
      by rewrite call_fetch_string_run, (fetch_string_valid _ _ _ _ Hp);
        cbn; rewrite Hnone.
    + intros target.
      by rewrite call_stringify_object_run,
        (stringify_object_valid _ _ _ _ Hp); cbn; rewrite Hnone.
Qed.

End Succession.

Lemma fetch_twice_and_after_erase_witness :
  ∃ this1,
    call_erase_value (lib := sample_library) "/a/1" two_numbers_at_a
    = Returns (true, this1)
    ∧ node_at (lib := sample_library) this1 "/a/1" = None
    ∧ call_fetch_int64 (lib := sample_library) "/a/1" 7 this1
      = Returns ((false, 7), this1).
Proof.
  eexists. split; [reflexivity|]. split; [reflexivity|].
  destruct (proj2 (proj2 (proj2 (proj2 (proj2
              (fetch_twice_and_after_erase (lib := sample_library)
                 two_numbers_at_a "/a/1")))))
              _ eq_refl)
    as (tokens & last & parent & _ & _ & _ & Habsent).
  exact (proj1 (Habsent eq_refl) 7).
Defined.

(** ** The acceptance gate as a whole *)

Section Gate.
Context {lib : Library}.
Implicit Types (this : BackendResponse) (key : string).

(** [verify] reads the error flag and message, the status code and the
    nodes at [/status] and [/description], and nothing else. *)
Lemma verify_reads this this' (error_code : Z) :
  parse_error this' = parse_error this →
  error_msg this' = error_msg this →
  response_code this' = response_code this →
  node_at this' "/status" = node_at this "/status" →
  node_at this' "/description" = node_at this "/description" →
  verify this' error_code = verify this error_code.
Proof.
  intros Herr Hmsg Hcode Hstatus Hdescription.
  assert (has_error this' = has_error this) as Herr' by done.
  assert (http_code_ok this' = http_code_ok this) as Hok
    by (unfold http_code_ok; by rewrite Hcode).
  destruct (has_error this) eqn:He.
  { by rewrite !verify_parse_error, Hmsg. }
  destruct (http_code_ok this) eqn:Hc.
  - by rewrite !verify_api, Hstatus, Hdescription.
  - by rewrite !verify_http_code, Hcode.
Qed.

Lemma Get_name_off_object root (t : Token) tokens :
  IsObject root = false →
  index t = kPointerInvalidIndex →
  Get root (t :: tokens) = None.
Proof.
  intros Hroot Hindex. rewrite Get_cons. destruct root; try done.
  by rewrite Hindex, Z.eqb_refl.
Qed.

Lemma Erase_IsObject root tokens :
  IsObject (Erase root tokens).2 = IsObject root.
Proof.
  destruct tokens as [|t [|t' tokens]]; [done|rewrite Erase_last|rewrite Erase_cons];
    destruct root as [| | |members|elements| |]; try done.
  - by destruct (FindMember _ _) as [[? ?]|].
  - by destruct (_ || _).
  - destruct (FindMember _ _) as [[? [? v]]|]; [|done].
    by destruct (Erase v _).
  - destruct (_ || _); [done|]. destruct (_ !! _) as [v|]; [|done].
    by destruct (Erase v _).
Qed.

(** X5. [verify] always returns, sends at most one report, and returns
    false exactly when it has sent one: no response is refused in
    silence and none is accepted with a report. *)
Theorem verify_rejects_iff_reports this (error_code : Z) :
  ∃ flag reports,
    verify this error_code = Returns (flag, reports)
    ∧ (flag = false ↔ ∃ report, reports = [report])
    ∧ (flag = true ↔ reports = []).
Proof.
  destruct (has_error this) eqn:Herr.
  { rewrite verify_parse_error by done. eexists _, _. naive_solver. }
  destruct (http_code_ok this) eqn:Hcode.
  - rewrite verify_api by done.
    destruct (node_at this "/status") as [[| | | | | |[z|]]|];
      try (eexists _, _; naive_solver).
    destruct (node_at this "/description") as [[]|];
      try (eexists _, _; naive_solver).
    destruct (_ && _); eexists _, _; naive_solver.
  - rewrite verify_http_code by done. eexists _, _. naive_solver.
Qed.

(** X6. [verify] returns true if and only if the envelope has no parse
    error, its status code is from 200 to 299, and the document does
    not hold both a non-zero 64-bit integer at [/status] and a string
    at [/description]; in particular a zero status is accepted. *)
Theorem verify_true_iff this (error_code : Z) :
  (∃ reports, verify this error_code = Returns (true, reports))
  ↔ has_error this = false
    ∧ http_code_ok this = true
    ∧ ¬ ∃ z d, node_at this "/status" = Some (kNumber (Integer z))
               ∧ - 2 ^ 63 ≤ z < 2 ^ 63
               ∧ z ≠ 0
               ∧ node_at this "/description" = Some (kString d).
Proof.
  destruct (has_error this) eqn:Herr.
  { rewrite verify_parse_error by done. naive_solver. }
  destruct (http_code_ok this) eqn:Hcode;
    [|rewrite verify_http_code by done; naive_solver].
  rewrite verify_api by done.
  destruct (node_at this "/status") as [[| | | | | |[z|]]|];
    try (split; [by intros _; split_and!; [..|intros (?&?&?&_)]|by eauto]).
  destruct (node_at this "/description") as [[]|];
    try (split; [by intros _; split_and!; [..|intros (?&?&_&_&_&?)]|by eauto]).
  unfold IsInt64.
  destruct (Z.leb_spec (- 2 ^ 63) z), (Z.ltb_spec z (2 ^ 63)),
    (Z.eqb_spec 0 z); cbn [andb negb];
    try (split; [intros _; split_and!; [done..|];
                 intros (?&?&[= <-]&?&?&_); lia
                |by eauto]).
  split; [by intros [? [=]]|]. intros (_ & _ & []). exists z, s. by split_and!; [..|lia|].
Qed.

(** X7. A response without parse error and with a status code from 200
    to 299 whose document root is not an object (an array, a string, a
    number, a literal) passes [verify]: the API-level check looks at
    the members of a root object only. *)
Theorem verify_accepts_root_that_is_no_object this (error_code : Z) :
  has_error this = false →
  http_code_ok this = true →
  IsObject (document this) = false →
  verify this error_code = Returns (true, []).
Proof.
  intros Herr Hcode Hroot. rewrite verify_api by done.
  rewrite (node_at_valid _ _ [token_of_name "status"]) by done.
  by rewrite Get_name_off_object.
Qed.

(** X8. Erasing a field does not change the verdict, unless the path
    starts at [status] or [description]: after an [erase_value] at any
    other path, successful or not, [verify] returns what it returned
    before. *)
Theorem verify_after_erase_value this key t ts erased this'
    (error_code : Z) :
  Pointer key = Some (t :: ts) →
  name t ≠ "status" →
  name t ≠ "description" →
  erase_value this key = Returns (erased, this') →
  verify this' error_code = verify this error_code.
Proof.
  intros Hp Hstatus Hdescription. rewrite (erase_value_valid _ _ _ Hp).
  intros [= _ <-]. apply verify_reads; try done.
  - rewrite !(node_at_valid _ _ [token_of_name "status"]) by done. cbn.
    destruct (IsObject (document this)) eqn:Hroot.
    + destruct (document this) as [| | |members| | |] eqn:Hdoc; try done.
      by apply (Erase_frame [] _ t ts (token_of_name "status") [] members
                  (Erase (kObject members) (t :: ts)).1);
        [..|destruct (Erase _ _)].
    + rewrite !Get_name_off_object; try done.
      by rewrite Erase_IsObject.
  - rewrite !(node_at_valid _ _ [token_of_name "description"]) by done. cbn.
    destruct (IsObject (document this)) eqn:Hroot.
    + destruct (document this) as [| | |members| | |] eqn:Hdoc; try done.
      by apply (Erase_frame [] _ t ts (token_of_name "description") [] members
                  (Erase (kObject members) (t :: ts)).1);
        [..|destruct (Erase _ _)].
    + rewrite !Get_name_off_object; try done.
      by rewrite Erase_IsObject.
Qed.

End Gate.

Lemma verify_accepts_root_that_is_no_object_witness :
  has_error array_root = false
  ∧ http_code_ok array_root = true
  ∧ IsObject (document array_root) = false
  ∧ verify (lib := sample_library) array_root 7 = Returns (true, []).
Proof.
  split_and!; [reflexivity..|].
  exact (verify_accepts_root_that_is_no_object (lib := sample_library)
           array_root 7 eq_refl eq_refl eq_refl).
Defined.

Lemma verify_after_erase_value_witness :
  ∃ this',
    erase_value (lib := sample_library) plugin_offer "/data/plugin" = Returns (true, this')
    ∧ verify (lib := sample_library) this' 7
      = verify (lib := sample_library) plugin_offer 7.
Proof.
  eexists. split; [reflexivity|].
  exact (verify_after_erase_value (lib := sample_library) plugin_offer
           "/data/plugin" (token_of_name "data") [token_of_name "plugin"]
           true _ 7 eq_refl ltac:(done) ltac:(done) eq_refl).
Defined.

(** ** What the accessors and builders hand out *)

Section Handouts.
Context {lib : Library}.
Implicit Types (this : BackendResponse) (key : string).

Lemma Get_kNull tokens :
  Get kNull tokens = match tokens with [] => Some kNull | _ => None end.
Proof. by destruct tokens. Qed.

Lemma Erase_kNull tokens : Erase kNull tokens = (false, kNull).
Proof. by destruct tokens as [|t [|t' tokens]]. Qed.

Lemma push_strings_free elements values :
  push_strings elements = Returns values →
  Forall (λ s, contains NUL s = false) values.
Proof.
  revert values. induction elements as [|v elements IH]; intros values.
  { by intros [= <-]. }
  cbn. destruct v; try done. cbn.
  destruct (push_strings elements) as [rest|]; [|done].
  intros [= <-]. constructor; [apply c_str_free|eauto].
Qed.

Lemma fetch_object_keys_free this key keys :
  fetch_object_keys this key = Returns keys →
  Forall (λ s, contains NUL s = false) keys.
Proof.
  destruct (Pointer key) as [tokens|] eqn:Hp;
    [|by unfold fetch_object_keys; rewrite Hp].
  rewrite (fetch_object_keys_valid _ _ _ Hp).
  destruct (Get _ _) as [[| | |members| | |]|]; try by intros [= <-].
  intros [= <-]. apply Forall_fmap, Forall_forall. intros m _. apply c_str_free.
Qed.

Lemma fetch_string_array_free this key values :
  fetch_string_array this key = Returns values →
  Forall (λ s, contains NUL s = false) values.
Proof.
  destruct (Pointer key) as [tokens|] eqn:Hp;
    [|by unfold fetch_string_array; rewrite Hp].
  rewrite (fetch_string_array_valid _ _ _ Hp).
  destruct (Get _ _) as [[| | | |elements| |]|]; try by intros [= <-].
  apply push_strings_free.
Qed.

(** X9. An envelope built from a body the reader rejects hands out
    nothing: at every valid path the scalar fetchers return false, the
    vector fetchers return the empty vector and [erase_value] returns
    false without a change, no plugin package is built, and the hook
    whitelist is empty. *)
Theorem rejected_body_hands_out_nothing {dig : Digest} (response_code : Z)
    (header body : string) (code : ParseErrorCode) key :
  Parse (c_str body) = inr code →
  is_Some (Pointer key) →
  (∀ target : Z,
     fetch_int64 (new response_code header body) key target
     = Returns (false, target))
  ∧ (∀ target : string,
       fetch_string (new response_code header body) key target
       = Returns (false, target))
  ∧ fetch_object_keys (new response_code header body) key = Returns []
  ∧ fetch_string_array (new response_code header body) key = Returns []
  ∧ erase_value (new response_code header body) key
    = Returns (false, new response_code header body)
  ∧ build_plugin_update_package (new response_code header body)
    = Returns None
  ∧ build_hook_white_map (new response_code header body) key = Returns ∅.
Proof.
  intros Hparse [tokens Hp].
  assert (document (new response_code header body) = kNull) as Hdoc
    by (unfold new; by rewrite Hparse).
  split_and!.
  - intros target. rewrite (fetch_int64_valid _ _ _ _ Hp), Hdoc, Get_kNull.
    by destruct tokens.
  - intros target. rewrite (fetch_string_valid _ _ _ _ Hp), Hdoc, Get_kNull.
    by destruct tokens.
  - rewrite (fetch_object_keys_valid _ _ _ Hp), Hdoc, Get_kNull.
    by destruct tokens.
  - rewrite (fetch_string_array_valid _ _ _ Hp), Hdoc, Get_kNull.
    by destruct tokens.
  - rewrite (erase_value_valid _ _ _ Hp), Hdoc, Erase_kNull. cbn.
    rewrite <-Hdoc. by destruct (new response_code header body).
  - unfold build_plugin_update_package.
    rewrite (fetch_string_valid _ "/data/plugin/plugin"
               [token_of_name "data"; token_of_name "plugin";
                token_of_name "plugin"]) by done.
    by rewrite Hdoc.
  - unfold build_hook_white_map.
    rewrite (fetch_object_keys_valid _ _ _ Hp), Hdoc, Get_kNull.
    by destruct tokens.
Qed.

(** X10. No string a fetcher hands out holds a NUL byte: not the target
    of a successful [fetch_string], not a key from [fetch_object_keys],
    not a value from [fetch_string_array]. *)
Theorem fetched_strings_hold_no_nul this key :
  (∀ (target s : string),
     fetch_string this key target = Returns (true, s) →
     contains NUL s = false)
  ∧ (∀ keys,
       fetch_object_keys this key = Returns keys →
       Forall (λ s, contains NUL s = false) keys)
  ∧ (∀ values,
       fetch_string_array this key = Returns values →
       Forall (λ s, contains NUL s = false) values).
Proof.
  split_and!; [|apply fetch_object_keys_free|apply fetch_string_array_free].
  intros target s. destruct (Pointer key) as [tokens|] eqn:Hp;
    [|by unfold fetch_string; rewrite Hp].
  rewrite (fetch_string_valid _ _ _ _ Hp).
  destruct (Get _ _) as [[]|]; try done. intros [= <-]. apply c_str_free.
Qed.

(** X11. Whoever holds a package holds checked content: when
    [build_plugin_update_package] returns a package, its digest is the
    digest computed over its source code, its three strings are the
    C strings of the string nodes at the three paths, and none of them
    holds a NUL byte.  The version is not required to be non-empty. *)
Theorem package_is_digest_checked {dig : Digest} this package :
  build_plugin_update_package this = Returns (Some package) →
  PluginUpdatePackage.digest package
  = md5sum (PluginUpdatePackage.sourceCode package)
  ∧ (∃ p m v,
       node_at this "/data/plugin/plugin" = Some (kString p)
       ∧ node_at this "/data/plugin/md5" = Some (kString m)
       ∧ node_at this "/data/plugin/version" = Some (kString v)
       ∧ package = PluginUpdatePackage.make (c_str p) (c_str v) (c_str m))
  ∧ contains NUL (PluginUpdatePackage.sourceCode package) = false
  ∧ contains NUL (PluginUpdatePackage.version package) = false
  ∧ contains NUL (PluginUpdatePackage.digest package) = false.
Proof.
  unfold build_plugin_update_package.
  rewrite (fetch_string_valid _ "/data/plugin/plugin"
             [token_of_name "data"; token_of_name "plugin";
              token_of_name "plugin"]) by done.
  rewrite (node_at_valid _ "/data/plugin/plugin"
             [token_of_name "data"; token_of_name "plugin";
              token_of_name "plugin"]) by done.
  destruct (Get _ _) as [[| | | | |p|]|]; try done. cbn -[fetch_string].
  rewrite (fetch_string_valid _ "/data/plugin/md5"
             [token_of_name "data"; token_of_name "plugin";
              token_of_name "md5"]) by done.
  rewrite (node_at_valid _ "/data/plugin/md5"
             [token_of_name "data"; token_of_name "plugin";
              token_of_name "md5"]) by done.
  destruct (Get _ _) as [[| | | | |m|]|]; try done. cbn -[fetch_string].
  destruct (String.eqb_spec (md5sum (c_str p)) (c_str m)) as [Hsum|];
    [|done]. cbn -[fetch_string].
  rewrite (fetch_string_valid _ "/data/plugin/version"
             [token_of_name "data"; token_of_name "plugin";
              token_of_name "version"]) by done.
  rewrite (node_at_valid _ "/data/plugin/version"
             [token_of_name "data"; token_of_name "plugin";
              token_of_name "version"]) by done.
  destruct (Get _ _) as [[| | | | |v|]|]; try done. cbn.
  intros [= <-]. cbn. split_and!; try apply c_str_free; [done|].
  by exists p, m, v.
Qed.

End Handouts.

Lemma rejected_body_hands_out_nothing_witness :
  Parse (Library := sample_library) (c_str "garbage")
  = inr kParseErrorValueInvalid
  ∧ is_Some (Pointer (lib := sample_library) "/data/plugin/md5")
  ∧ ∀ target : string,
      fetch_string (lib := sample_library)
        (new (lib := sample_library) 200 EmptyString "garbage")
        "/data/plugin/md5" target
      = Returns (false, target).
Proof.
  assert (is_Some (Pointer (lib := sample_library) "/data/plugin/md5"))
    as Hvalid by (eexists; reflexivity).
  split; [reflexivity|]. split; [exact Hvalid|].
  exact (proj1 (proj2 (rejected_body_hands_out_nothing
                         (lib := sample_library) (dig := sample_digest)
                         200 EmptyString "garbage" kParseErrorValueInvalid
                         "/data/plugin/md5" eq_refl Hvalid))).
Defined.

Lemma fetched_strings_hold_no_nul_witness :
  fetch_string_array (lib := sample_library) nul_in_element "/a"
  = Returns ["x"]
  ∧ Forall (λ s, contains NUL s = false) ["x"].
Proof.
  split; [reflexivity|].
  exact (proj2 (proj2 (fetched_strings_hold_no_nul (lib := sample_library)
                         nul_in_element "/a"))
           ["x"] eq_refl).
Defined.

Lemma package_is_digest_checked_witness :
  build_plugin_update_package (lib := sample_library) (dig := sample_digest)
    plugin_offer
  = Returns (Some (PluginUpdatePackage.make "print(1);" "2019-0101" "print(1);"))
  ∧ "print(1);" = md5sum (Digest := sample_digest) "print(1);".
Proof.
  split; [reflexivity|].
  exact (proj1 (package_is_digest_checked (lib := sample_library)
                  (dig := sample_digest) plugin_offer
                  (PluginUpdatePackage.make "print(1);" "2019-0101" "print(1);")
                  eq_refl)).
Defined.

(** ** The hook whitelist, entry by entry *)

Section HookEntries.
Context {lib : Library}.
Implicit Types (this : BackendResponse) (key key_item : string).
Implicit Types (members : list (string * Value)).
Implicit Types (hook_white_map : gmap string (list string)).

(** A loop that returns has fetched a vector for every key. *)
Lemma insert_hooks_fetched this key keys : ∀ hook_white_map result,
  insert_hooks this key keys hook_white_map = Returns result →
  ∀ key_item, key_item ∈ keys →
    ∃ white_types,
      fetch_string_array this
        (c_str key +:+ "/" +:+ string_replace key_item "/" "~1")
      = Returns white_types.
Proof.
  induction keys as [|k keys IH]; intros hook_white_map result Hloop key_item;
    [set_solver|].
  cbn [insert_hooks] in Hloop.
  destruct (fetch_string_array this _) as [white_types|] eqn:Hfetch; [|done].
  cbn in Hloop. intros [->|Hin]%elem_of_cons; eauto.
Qed.

(** The entries of a returned map: one for each fetched key, holding
    what [fetch_string_array] returns at the path built for the key. *)
Lemma build_hook_white_map_entries this key hook_white_map :
  build_hook_white_map this key = Returns hook_white_map →
  ∃ keys,
    fetch_object_keys this key = Returns keys
    ∧ ∀ k, hook_white_map !! k
           = if decide (k ∈ keys)
             then match fetch_string_array this
                          (c_str key +:+ "/" +:+ string_replace k "/" "~1")
                  with
                  | Returns white_types => Some white_types
                  | Undefined => None
                  end
             else None.
Proof.
  unfold build_hook_white_map.
  destruct (fetch_object_keys this key) as [keys|]; [|done]. cbn.
  intros Hloop. exists keys. split; [done|].
  pose (types := λ k : string,
          match fetch_string_array this
                  (c_str key +:+ "/" +:+ string_replace k "/" "~1")
          with
          | Returns white_types => white_types
          | Undefined => []
          end).
  destruct (insert_hooks_returns this key types keys) with (hook_white_map := (∅ : gmap string (list string)))
    as (result & Hresult & Hlookup).
  { intros k Hk. unfold types.
    by destruct (insert_hooks_fetched _ _ _ _ _ Hloop k Hk) as [? ->]. }
  rewrite Hloop in Hresult. injection Hresult as <-.
  intros k. rewrite Hlookup, lookup_empty. case_decide; [|done].
  unfold types.
  by destruct (insert_hooks_fetched _ _ _ _ _ Hloop k ltac:(done)) as [? ->].
Qed.

(** X12. The path built for a member resolves to that member: for a
    valid parent path in string form that resolves to an object, and a
    member name without tilde and NUL, the parent path followed by a
    solidus and the name with its solidi escaped resolves to the value
    of the first member of that name, and to nothing when the object
    has no such member. *)
Theorem hook_path_resolves_to_member this key members key_item :
  is_Some (Pointer key) →
  (∀ rest, c_str key ≠ String "#" rest) →
  node_at this key = Some (kObject members) →
  contains "~" key_item = false →
  contains NUL key_item = false →
  node_at this (c_str key +:+ "/" +:+ string_replace key_item "/" "~1")
  = (λ found, found.2.2) <$> FindMember members key_item.
Proof.
  intros [tokens Hp] Hfragment. rewrite (node_at_valid _ _ _ Hp).
  intros Hobject Htilde Hnul.
  rewrite (node_at_valid _ _ _ (Pointer_child _ _ _ Hp Hfragment Htilde Hnul)).
  rewrite Get_app, Hobject. cbn. rewrite Get_member.
  by destruct (FindMember _ _) as [[? [? ?]]|].
Qed.

(** X13. A returned map holds the fetched keys and nothing else: its
    key set is the set of keys [fetch_object_keys] returns at the path,
    every entry holds the vector [fetch_string_array] returns at the
    path built for its key, and no key and no bypass type holds a NUL
    byte. *)
Theorem hook_map_holds_the_fetched_keys this key hook_white_map :
  build_hook_white_map this key = Returns hook_white_map →
  ∃ keys,
    fetch_object_keys this key = Returns keys
    ∧ dom hook_white_map = list_to_set keys
    ∧ ∀ k white_types,
        hook_white_map !! k = Some white_types →
        fetch_string_array this
          (c_str key +:+ "/" +:+ string_replace k "/" "~1")
        = Returns white_types
        ∧ contains NUL k = false
        ∧ Forall (λ s, contains NUL s = false) white_types.
Proof.
  intros Hmap.
  destruct (build_hook_white_map_entries _ _ _ Hmap) as (keys & Hkeys & Hlookup).
  assert (∀ k, k ∈ keys →
            ∃ white_types,
              fetch_string_array this
                (c_str key +:+ "/" +:+ string_replace k "/" "~1")
              = Returns white_types) as Hfetched.
  { unfold build_hook_white_map in Hmap. rewrite Hkeys in Hmap.
    by eapply insert_hooks_fetched. }
  exists keys. split; [done|]. split.
  - apply set_eq. intros k.
    rewrite elem_of_dom, Hlookup, elem_of_list_to_set.
    case_decide as Hk; [|by split; [intros [? ?]|]].
    destruct (Hfetched k Hk) as [white_types ->]. by split; eauto.
  - intros k white_types. rewrite Hlookup. case_decide as Hk; [|done].
    destruct (fetch_string_array this _) as [fetched|] eqn:Hfetch; [|done].
    intros [= <-]. split; [done|]. split.
    + pose proof (fetch_object_keys_free _ _ _ Hkeys) as Hfree.
      rewrite Forall_forall in Hfree. eauto.
    + by eapply fetch_string_array_free.
Qed.

(** X14. A hook whose value is not an array gets an empty whitelist: in
    a returned map, a member name without tilde and NUL whose first
    member holds anything but an array (a number, a string, a literal,
    an object) is mapped to the empty vector, as a hook with an empty
    array is. *)
Theorem hook_without_array_is_mapped_to_empty this key members
    hook_white_map key_item i v :
  is_Some (Pointer key) →
  (∀ rest, c_str key ≠ String "#" rest) →
  node_at this key = Some (kObject members) →
  build_hook_white_map this key = Returns hook_white_map →
  contains "~" key_item = false →
  contains NUL key_item = false →
  FindMember members key_item = Some (i, (key_item, v)) →
  IsArray v = false →
  hook_white_map !! key_item = Some [].
Proof.
  intros [tokens Hp] Hfragment. rewrite (node_at_valid _ _ _ Hp).
  intros Hobject Hmap Htilde Hnul Hfind Hv.
  destruct (build_hook_white_map_entries _ _ _ Hmap) as (keys & Hkeys & ->).
  rewrite (fetch_object_keys_valid _ _ _ Hp), Hobject in Hkeys.
  injection Hkeys as <-.
  rewrite decide_True; last first.
  { apply FindMember_Some in Hfind as (Hi & _ & _).
    apply list_elem_of_fmap. exists (key_item, v).
    split; [by cbn; rewrite c_str_id|by eapply list_elem_of_lookup_2]. }
  rewrite (fetch_string_array_child _ _ _ _ key_item Hp Hfragment Hobject Htilde Hnul).
  rewrite Hfind. by destruct v.
Qed.

End HookEntries.

Lemma hook_path_resolves_to_member_witness :
  node_at (lib := sample_library) solidus_hook
    (c_str "/data" +:+ "/" +:+ string_replace "sql/select" "/" "~1")
  = Some (kArray [kString "x"]).
Proof.
  exact (hook_path_resolves_to_member (lib := sample_library) solidus_hook
           "/data" [("sql/select", kArray [kString "x"])] "sql/select"
           ltac:(by eexists) ltac:(done) eq_refl eq_refl eq_refl).
Defined.

Lemma hook_map_holds_the_fetched_keys_witness :
  ∃ keys,
    fetch_object_keys (lib := sample_library) hook_white "/data" = Returns keys
    ∧ dom ({[ "hookA" := ["bypass1"; "bypass2"]; "hookB" := [] ]}
             : gmap string (list string))
      = list_to_set keys.
Proof.
  destruct (hook_map_holds_the_fetched_keys (lib := sample_library)
              hook_white "/data"
              {[ "hookA" := ["bypass1"; "bypass2"]; "hookB" := [] ]})
    as (keys & Hkeys & Hdom & _).
  { vm_compute. reflexivity. }
  by exists keys.
Defined.

Lemma hook_without_array_is_mapped_to_empty_witness :
  build_hook_white_map (lib := sample_library) flag_hook "/data"
  = Returns {[ "hookA" := [] ]}
  ∧ ({[ "hookA" := [] ]} : gmap string (list string)) !! "hookA" = Some [].
Proof.
  assert (build_hook_white_map (lib := sample_library) flag_hook "/data"
          = Returns {[ "hookA" := [] ]}) as Hmap
    by (vm_compute; reflexivity).
  split; [exact Hmap|].
  exact (hook_without_array_is_mapped_to_empty (lib := sample_library)
           flag_hook "/data" [("hookA", kTrue)] _ "hookA" 0%nat kTrue
           ltac:(by eexists) ltac:(done) eq_refl Hmap eq_refl eq_refl
           eq_refl eq_refl).
Defined.

(** ** The commit id of the configure script *)

Section CommitId.
Implicit Types (text : list N) (reads : list (list N)).

Lemma replace_line_breaks_filter text :
  replace_line_breaks text = filter (λ c, c ≠ CR ∧ c ≠ LF) text.
Proof.
  enough (∀ (n : nat) text, (length text < n)%nat →
            replace_line_breaks text = filter (λ c, c ≠ CR ∧ c ≠ LF) text)
    as Hall by (eapply Hall; apply Nat.lt_succ_diag_r).
  clear text. induction n as [|n IH]; [lia|].
  intros [|c rest] Hlen; [done|]. cbn in Hlen.
  cbn [replace_line_breaks]. destruct (N.eqb_spec c CR) as [->|Hcr].
  - rewrite filter_cons_False by (by intros [[] _]).
    destruct rest as [|d rest']; [done|]. cbn in Hlen.
    destruct (N.eqb_spec d LF) as [->|Hlf].
    + rewrite filter_cons_False by (by intros [_ []]). apply IH. lia.
    + apply IH. cbn. lia.
  - destruct (N.eqb_spec c LF) as [->|Hlf].
    + rewrite filter_cons_False by (by intros [_ []]). apply IH. lia.
    + rewrite filter_cons_True by done. f_equal. apply IH. lia.
Qed.


End CommitId.


(** ** When the hook whitelist is defined *)

Section HookDefinedness.
Context {lib : Library}.
Implicit Types (this : BackendResponse) (key key_item : string).
Implicit Types (members : list (string * Value)).
Implicit Types (a bad source : string).

(** One fetch without result leaves the loop without result. *)
Lemma insert_hooks_undefined this key keys key_item : ∀ hook_white_map,
  key_item ∈ keys →
  fetch_string_array this
    (c_str key +:+ "/" +:+ string_replace key_item "/" "~1")
  = Undefined →
  insert_hooks this key keys hook_white_map = Undefined.
Proof.
  induction keys as [|k keys IH]; intros hook_white_map Hin Hfetch;
    [set_solver|].
  cbn [insert_hooks].
  destruct (decide (k = key_item)) as [->|Hne]; [by rewrite Hfetch|].
  destruct (fetch_string_array this
              (c_str key +:+ "/" +:+ string_replace k "/" "~1"))
    as [white_types|]; [|done].
  cbn. apply IH; [|done]. set_solver.
Qed.

Lemma append_assoc a b source : (a +:+ b) +:+ source = a +:+ (b +:+ source).
Proof.
  induction a as [|c a IH]; [done|].
  change (String c ((a +:+ b) +:+ source) = String c (a +:+ (b +:+ source))).
  by rewrite IH.
Qed.

Lemma string_replace_app a b :
  string_replace (a +:+ b) "/" "~1"
  = string_replace a "/" "~1" +:+ string_replace b "/" "~1".
Proof.
  induction a as [|c a IH]; [done|].
  change (String c a +:+ b) with (String c (a +:+ b)).
  rewrite !string_replace_solidus, IH. by destruct (Ascii.eqb c "/").
Qed.

(** A tilde at the end of the source, or followed by anything but 0 and
    1, is an invalid escape wherever it stands. *)
Lemma parse_names_stray_tilde source bad :
  (bad = EmptyString
   ∨ ∃ c rest, bad = String c rest ∧ c ≠ "0"%char ∧ c ≠ "1"%char) →
  parse_names (source +:+ String "~" bad) = None.
Proof.
  intros Hbad.
  enough (∀ (n : nat) source, (String.length source < n)%nat →
            parse_names (source +:+ String "~" bad) = None)
    as Hall by (eapply Hall; apply Nat.lt_succ_diag_r).
  clear source. induction n as [|n IH]; [lia|].
  intros [|c source] Hlen.
  - simpl. destruct Hbad as [->|(d & rest & -> & H0 & H1)]; [done|].
    destruct (Ascii.eqb_spec d "0"); [done|].
    by destruct (Ascii.eqb_spec d "1").
  - simpl in Hlen |- *. destruct (Ascii.eqb c "/").
    { by rewrite IH by lia. }
    destruct (Ascii.eqb c "~"); [|by rewrite IH by lia].
    destruct source as [|e source]; [done|]. simpl in Hlen |- *.
    destruct (Ascii.eqb e "0"); [by rewrite IH by lia|].
    destruct (Ascii.eqb e "1"); [by rewrite IH by lia|done].
Qed.

Lemma string_replace_stray_tilde a bad :
  (bad = EmptyString
   ∨ ∃ c rest, bad = String c rest ∧ c ≠ "0"%char ∧ c ≠ "1"%char) →
  ∃ bad',
    string_replace (a +:+ String "~" bad) "/" "~1"
    = string_replace a "/" "~1" +:+ String "~" bad'
    ∧ (bad' = EmptyString
       ∨ ∃ c rest, bad' = String c rest ∧ c ≠ "0"%char ∧ c ≠ "1"%char).
Proof.
  intros Hbad. exists (string_replace bad "/" "~1").
  rewrite string_replace_app, string_replace_solidus. split; [done|].
  destruct Hbad as [->|(c & rest & -> & H0 & H1)]; [by left|right].
  rewrite string_replace_solidus.
  destruct (Ascii.eqb c "/"); eexists _, _; by split_and!.
Qed.

(** X16. The whitelist is built all or nothing:
    [build_hook_white_map] returns a map if and only if
    [fetch_object_keys] returns at the path and [fetch_string_array]
    returns at the path built for each of the keys; one member on
    which the fetch has no defined result leaves the call without
    result for all of them. *)
Theorem build_hook_white_map_returns_iff this key :
  (∃ hook_white_map, build_hook_white_map this key = Returns hook_white_map)
  ↔ ∃ keys,
      fetch_object_keys this key = Returns keys
      ∧ ∀ key_item, key_item ∈ keys →
          ∃ white_types,
            fetch_string_array this
              (c_str key +:+ "/" +:+ string_replace key_item "/" "~1")
            = Returns white_types.
Proof.
  unfold build_hook_white_map. split.
  - intros [hook_white_map Hmap].
    destruct (fetch_object_keys this key) as [keys|]; [|done].
    exists keys. split; [done|]. by eapply insert_hooks_fetched.
  - intros (keys & -> & Hfetched). cbn.
    pose (types := λ k : string,
            match fetch_string_array this
                    (c_str key +:+ "/" +:+ string_replace k "/" "~1")
            with
            | Returns white_types => white_types
            | Undefined => []
            end).
    destruct (insert_hooks_returns this key types keys) with (hook_white_map := (∅ : gmap string (list string)))
      as (result & Hresult & _); [|by eauto].
    intros k Hk. unfold types. by destruct (Hfetched k Hk) as [? ->].
Qed.

(** X17. One hook name with a stray tilde loses the whole whitelist:
    when the object at a valid path in string form has a member whose
    name holds no NUL and holds a tilde that ends the name or is
    followed by anything but 0 and 1, the path built for that member is
    not a valid pointer and [build_hook_white_map] has no defined
    result, whatever the other members are. *)
Theorem stray_tilde_loses_the_whitelist this key members a bad v :
  is_Some (Pointer key) →
  (∀ rest, c_str key ≠ String "#" rest) →
  node_at this key = Some (kObject members) →
  (a +:+ String "~" bad, v) ∈ members →
  contains NUL (a +:+ String "~" bad) = false →
  (bad = EmptyString
   ∨ ∃ c rest, bad = String c rest ∧ c ≠ "0"%char ∧ c ≠ "1"%char) →
  build_hook_white_map this key = Undefined.
Proof.
  intros [tokens Hp] Hfragment. rewrite (node_at_valid _ _ _ Hp).
  intros Hobject Hin Hnul Hbad.
  unfold build_hook_white_map.
  rewrite (fetch_object_keys_valid _ _ _ Hp), Hobject. cbn.
  apply (insert_hooks_undefined _ _ _ (a +:+ String "~" bad)).
  { apply list_elem_of_fmap. exists (a +:+ String "~" bad, v).
    split; [by cbn; rewrite c_str_id|done]. }
  unfold fetch_string_array.
  enough (Pointer (c_str key +:+ "/" +:+
                   string_replace (a +:+ String "~" bad) "/" "~1") = None)
    as -> by done.
  assert (contains NUL (string_replace (a +:+ String "~" bad) "/" "~1")
          = false) as Hfree by by apply string_replace_free.
  destruct (string_replace_stray_tilde a _ Hbad) as (bad' & Hescaped & Hbad').
  rewrite Hescaped in *.
  change ("/" +:+ ?json_ptr) with (String "/" json_ptr).
  unfold Pointer in *.
  rewrite c_str_id by (rewrite contains_app, c_str_free; exact Hfree).
  destruct (c_str key) as [|c rest].
  { simpl. by rewrite parse_names_stray_tilde. }
  simpl. destruct (Ascii.eqb_spec c "#") as [->|_]; [by destruct (Hfragment rest)|].
  destruct (Ascii.eqb c "/"); [|done].
  change (String "/" (?x +:+ ?y)) with (String "/" x +:+ y).
  by rewrite <-append_assoc, parse_names_stray_tilde.
Qed.

End HookDefinedness.

Lemma stray_tilde_loses_the_whitelist_witness :
  build_hook_white_map (lib := sample_library) tilde_hook "/data" = Undefined.
Proof.
  exact (stray_tilde_loses_the_whitelist (lib := sample_library) tilde_hook
           "/data" [("a~b", kArray [kString "x"])] "a" "b"
           (kArray [kString "x"])
           ltac:(by eexists) ltac:(done) eq_refl ltac:(set_solver) eq_refl
           ltac:(right; by eexists _, _)).
Defined.
